(** * Jarvis voice interface: the access gate and the voice phase controller

    A shallow embedding of two state machines of the front end:

    - [PinGate] (component [PinGate], with [SecurityAnimation] and the way
      [Index] wires its [open] prop and [onAuthorized] callback);
    - [VoiceLoop] (hook [useJarvisVoiceLoop], the revision that takes the
      [micEnabled] prop and exposes [sendText]).

    React state, refs and props are fields of one record.  Every browser
    event (a tap, a timer, a recognition callback, a settled fetch, a
    synthesis callback, a prop change) is a constructor of an event type,
    and [step] runs the handler of that event together with the renders
    and effects it causes, as one atomic transition.  Work that the source
    leaves pending across an [await] or a [setTimeout] is kept in the
    state until the event that resumes it arrives. *)

From Stdlib Require Import ZArith NArith List String Ascii Bool Lia DecimalString Sorted.
From stdpp Require Import base option list sorting.
Import ListNotations.

Local Open Scope string_scope.
Local Open Scope list_scope.

(* ===================================================================== *)
(** ** Access gate *)
(* ===================================================================== *)

Module PinGate.

(** [useState<"idle" | "denied" | "passed">] *)
Inductive Status := idle | denied | passed.

#[global] Instance Status_eq_dec : EqDecision Status.
Proof. solve_decision. Defined.

(** [const REQUIRED_PIN = useMemo(() => "223366", [])] *)
Definition REQUIRED_PIN : string := "223366".

(** [nextDigits.join] with the empty separator. *)
Definition join (ds : list string) : string := String.concat EmptyString ds.

(** State of [PinGate], of the [pinAuthorized] flag that [Index] keeps
    (the gate is rendered with [open = !pinAuthorized]), and the pending
    timers.  [authorizedCalls] counts the invocations of [onAuthorized]. *)
Record Gate := mkGate {
  digits : list string;
  status : Status;
  animating : bool;
  pinAuthorized : bool;
  denyTimers : nat;          (* pending 650 ms callbacks of [deny] *)
  authorizedCalls : nat
}.

Definition init : Gate :=
  {| digits := []; status := idle; animating := false;
     pinAuthorized := false; denyTimers := 0; authorizedCalls := 0 |}.

(** [open={!pinAuthorized}] in [Index]. *)
Definition gate_open (g : Gate) : bool := negb (pinAuthorized g).

Definition set_digits (ds : list string) (g : Gate) : Gate :=
  {| digits := ds; status := status g; animating := animating g;
     pinAuthorized := pinAuthorized g; denyTimers := denyTimers g;
     authorizedCalls := authorizedCalls g |}.

Definition set_status (st : Status) (g : Gate) : Gate :=
  {| digits := digits g; status := st; animating := animating g;
     pinAuthorized := pinAuthorized g; denyTimers := denyTimers g;
     authorizedCalls := authorizedCalls g |}.

Definition set_animating (b : bool) (g : Gate) : Gate :=
  {| digits := digits g; status := status g; animating := b;
     pinAuthorized := pinAuthorized g; denyTimers := denyTimers g;
     authorizedCalls := authorizedCalls g |}.

Definition set_denyTimers (n : nat) (g : Gate) : Gate :=
  {| digits := digits g; status := status g; animating := animating g;
     pinAuthorized := pinAuthorized g; denyTimers := n;
     authorizedCalls := authorizedCalls g |}.

(** [onAuthorized] as given by [Index]: [setPinAuthorized(true)] (and
    [setStarted(true)], which belongs to the voice loop). *)
Definition onAuthorized (g : Gate) : Gate :=
  {| digits := digits g; status := status g; animating := animating g;
     pinAuthorized := true; denyTimers := denyTimers g;
     authorizedCalls := S (authorizedCalls g) |}.

(** [reset]: [setDigits([]); setStatus("idle")] *)
Definition reset (g : Gate) : Gate := set_status idle (set_digits [] g).

(** [deny]: [setStatus("denied")] and a 650 ms timer. *)
Definition deny (g : Gate) : Gate :=
  set_denyTimers (S (denyTimers g)) (set_status denied g).

(** [tryValidateIfComplete(nextDigits)] *)
Definition tryValidateIfComplete (nextDigits : list string) (g : Gate) : Gate :=
  if negb (length nextDigits =? 6)%nat then g
  else if String.eqb (join nextDigits) REQUIRED_PIN
       then set_animating true (set_status passed g)
       else deny g.

(** [addDigit(d)]: the updater of [setDigits] and the microtask it
    queues, which runs before any other event. *)
Definition addDigit (d : string) (g : Gate) : Gate :=
  if animating g then g
  else if (6 <=? length (digits g))%nat then g
  else let next := digits g ++ [d] in
       tryValidateIfComplete next (set_digits next g).

(** [backspace]: [prev.slice(0, -1)] and [setStatus("idle")]. *)
Definition backspace (g : Gate) : Gate :=
  if animating g then g
  else set_status idle (set_digits (removelast (digits g)) g).

(** [clearAll] *)
Definition clearAll (g : Gate) : Gate :=
  if animating g then g else reset g.

Inductive Event :=
| AddDigit (d : string)      (* a keypad button *)
| Backspace                  (* DEL *)
| ClearAll                   (* CLEAR *)
| Reset                      (* the Reset button, [disabled={animating}] *)
| DenyTimeout                (* a 650 ms timer of [deny] fires *)
| AnimationComplete.         (* the timer of [SecurityAnimation] fires *)

(** The keypad exists only while the gate is rendered ([open ? ... : null]);
    the animation timer exists only while [SecurityAnimation] is mounted
    with [open={animating}]. *)
Definition step (g : Gate) (e : Event) : Gate :=
  match e with
  | AddDigit d => if gate_open g then addDigit d g else g
  | Backspace => if gate_open g then backspace g else g
  | ClearAll => if gate_open g then clearAll g else g
  | Reset => if gate_open g && negb (animating g) then reset g else g
  | DenyTimeout =>
      match denyTimers g with
      | O => g
      | S n => set_status idle (set_digits [] (set_denyTimers n g))
      end
  | AnimationComplete =>
      if gate_open g && animating g
      then onAuthorized (set_animating false g)
      else g
  end.

Definition run (g : Gate) (es : list Event) : Gate := fold_left step es g.

(** Tapping the digits [ds] one after the other. *)
Definition enter (ds : list string) (g : Gate) : Gate := run g (map AddDigit ds).

(** *** Notions used by the properties *)

(** The taps that spell the required PIN. *)
Definition pin_digits : list string := ["2"; "2"; "3"; "3"; "6"; "6"].

Definition is_AnimationComplete (e : Event) : bool :=
  match e with AnimationComplete => true | _ => false end.

(** The confirmation animation is playing, or has completed, and no
    denial timer is pending. *)
Definition sealed (g : Gate) : Prop :=
  denyTimers g = 0%nat /\
  (animating g = true /\ pinAuthorized g = false /\ authorizedCalls g = 0%nat
   \/ animating g = false /\ pinAuthorized g = true /\ authorizedCalls g = 1%nat).

(** A wrong last digit, DEL, and the right digit, all within the
    cool-down of the denial. *)
Definition corrected_in_time : list Event :=
  map AddDigit ["2"; "2"; "3"; "3"; "6"; "1"] ++ [Backspace; AddDigit "6"].

(** *** The rest of the component *)

(** [maskedSlots]: six slots, the first [digits.length] of them filled. *)
Definition maskedSlots (g : Gate) : list string :=
  map (fun i => if (i <? length (digits g))%nat then "●" else "○") (seq 0 6).

(** The gates an event sequence passes through, the first one included. *)
Fixpoint visited (g : Gate) (es : list Event) : list Gate :=
  match es with
  | [] => [g]
  | e :: es' => g :: visited (step g e) es'
  end.

End PinGate.

(* ===================================================================== *)
(** ** Voice phase controller *)
(* ===================================================================== *)

Module VoiceLoop.

(** *** Strings

    A JavaScript string is a sequence of UTF-16 code units. *)
Definition text := list N.

Definition text_of_string (s : string) : text :=
  map N_of_ascii (list_ascii_of_string s).

(** Decimal rendering of a number inside a template literal. *)
Definition decimal (z : Z) : text :=
  text_of_string (NilZero.string_of_int (Z.to_int z)).

(** The code units [String.prototype.trim] strips: ECMAScript's WhiteSpace
    (TAB, VT, FF, ZWNBSP and the space separators) and LineTerminator
    (LF, CR, LS, PS).  All of them lie in the basic plane. *)
Definition is_whitespace (c : N) : bool :=
  ((9 <=? c) && (c <=? 13) || (c =? 32) || (c =? 160) || (c =? 5760)
   || (8192 <=? c) && (c <=? 8202) || (c =? 8232) || (c =? 8233)
   || (c =? 8239) || (c =? 8287) || (c =? 12288) || (c =? 65279))%N.

Fixpoint trimStart (t : text) : text :=
  match t with
  | c :: t' => if is_whitespace c then trimStart t' else t
  | [] => []
  end.

Definition trimEnd (t : text) : text := rev (trimStart (rev t)).

(** [s.trim()] *)
Definition trim (t : text) : text := trimEnd (trimStart t).

(** [!s] for a string [s]: only the empty string is falsy. *)
Definition is_empty (t : text) : bool :=
  match t with [] => true | _ => false end.

(** *** Data model *)

Inductive JarvisRole := user | assistant.

Record JarvisMessage := mkMessage {
  id : text;
  role : JarvisRole;
  content : text;
  ts : Z
}.

Inductive JarvisPhase :=
| locked | booting | idle | listening | thinking | speaking | error.

#[global] Instance JarvisPhase_eq_dec : EqDecision JarvisPhase.
Proof. solve_decision. Defined.

Record JarvisError := mkError {
  title : text;
  detail : option text
}.

(** An [AbortController] on the heap, together with the [fetch] that was
    given its signal: [pending] holds the request text until the
    continuation of that [fetch] has run. *)
Record AbortController := mkController {
  aborted : bool;
  pending : option text
}.

(** A [SpeechRecognition] object on the heap.  [captured] is the value of
    [phase] in the closure of the [startListening] that created it (the
    handlers read that binding, not the current state); [handlers] tells
    whether [onresult], [onerror] and [onend] are still attached ([onstart]
    is never detached); [running] is false once the session was aborted,
    has ended or could not start. *)
Record Recognition := mkRecognition {
  captured : JarvisPhase;
  handlers : bool;
  running : bool
}.

(** The hook instance: props, [useState] cells, [useRef] cells, the two
    capabilities of the platform, the heap objects the refs point into,
    and the asynchronous work that is pending. *)
Record State := mkState {
  (* props *)
  started : bool;
  micEnabled : bool;
  (* useState *)
  phase : JarvisPhase;
  micActive : bool;
  error_state : option JarvisError;             (* [error] *)
  messages : list JarvisMessage;
  (* useRef *)
  lastTranscriptRef : text;
  recognitionRef : option nat;
  speakingRef : bool;
  thinkingAbortRef : option nat;
  micEnabledRef : bool;
  (* platform *)
  supportsSpeechRecognition : bool;
  hasSpeechSynthesis : bool;          (* ["speechSynthesis" in window] *)
  (* heap: an object is named by its index *)
  controllers : list AbortController;
  recognitions : list Recognition;
  (* pending work *)
  bootTimer : bool;                     (* the 1600 ms timer *)
  settleTimer : option JarvisPhase;     (* the 250 ms timer, with the
                                           [phase] its closure captured *)
  rearmTimers : list JarvisPhase;       (* 450 ms timers, oldest first *)
  permissionWaits : list JarvisPhase;   (* [startListening] calls awaiting
                                           [getUserMedia], oldest first *)
  placeholderTimers : nat;              (* 900 ms timers of [speak] *)
  utterances : list text                (* utterances whose [speak] call
                                           awaits their end, oldest first *)
}.

Definition set_started (v : bool) (s : State) : State :=
  mkState v (micEnabled s) (phase s) (micActive s) (error_state s)
    (messages s) (lastTranscriptRef s) (recognitionRef s) (speakingRef s)
    (thinkingAbortRef s) (micEnabledRef s) (supportsSpeechRecognition s)
    (hasSpeechSynthesis s) (controllers s) (recognitions s) (bootTimer s)
    (settleTimer s) (rearmTimers s) (permissionWaits s)
    (placeholderTimers s) (utterances s).

Definition set_micEnabled (v : bool) (s : State) : State :=
  mkState (started s) v (phase s) (micActive s) (error_state s)
    (messages s) (lastTranscriptRef s) (recognitionRef s) (speakingRef s)
    (thinkingAbortRef s) (micEnabledRef s) (supportsSpeechRecognition s)
    (hasSpeechSynthesis s) (controllers s) (recognitions s) (bootTimer s)
    (settleTimer s) (rearmTimers s) (permissionWaits s)
    (placeholderTimers s) (utterances s).

Definition set_phase (v : JarvisPhase) (s : State) : State :=
  mkState (started s) (micEnabled s) v (micActive s) (error_state s)
    (messages s) (lastTranscriptRef s) (recognitionRef s) (speakingRef s)
    (thinkingAbortRef s) (micEnabledRef s) (supportsSpeechRecognition s)
    (hasSpeechSynthesis s) (controllers s) (recognitions s) (bootTimer s)
    (settleTimer s) (rearmTimers s) (permissionWaits s)
    (placeholderTimers s) (utterances s).

Definition set_micActive (v : bool) (s : State) : State :=
  mkState (started s) (micEnabled s) (phase s) v (error_state s)
    (messages s) (lastTranscriptRef s) (recognitionRef s) (speakingRef s)
    (thinkingAbortRef s) (micEnabledRef s) (supportsSpeechRecognition s)
    (hasSpeechSynthesis s) (controllers s) (recognitions s) (bootTimer s)
    (settleTimer s) (rearmTimers s) (permissionWaits s)
    (placeholderTimers s) (utterances s).

Definition set_error_state (v : option JarvisError) (s : State) : State :=
  mkState (started s) (micEnabled s) (phase s) (micActive s) v
    (messages s) (lastTranscriptRef s) (recognitionRef s) (speakingRef s)
    (thinkingAbortRef s) (micEnabledRef s) (supportsSpeechRecognition s)
    (hasSpeechSynthesis s) (controllers s) (recognitions s) (bootTimer s)
    (settleTimer s) (rearmTimers s) (permissionWaits s)
    (placeholderTimers s) (utterances s).

Definition set_messages (v : list JarvisMessage) (s : State) : State :=
  mkState (started s) (micEnabled s) (phase s) (micActive s)
    (error_state s) v (lastTranscriptRef s) (recognitionRef s)
    (speakingRef s) (thinkingAbortRef s) (micEnabledRef s)
    (supportsSpeechRecognition s) (hasSpeechSynthesis s) (controllers s)
    (recognitions s) (bootTimer s) (settleTimer s) (rearmTimers s)
    (permissionWaits s) (placeholderTimers s) (utterances s).

Definition set_lastTranscriptRef (v : text) (s : State) : State :=
  mkState (started s) (micEnabled s) (phase s) (micActive s)
    (error_state s) (messages s) v (recognitionRef s) (speakingRef s)
    (thinkingAbortRef s) (micEnabledRef s) (supportsSpeechRecognition s)
    (hasSpeechSynthesis s) (controllers s) (recognitions s) (bootTimer s)
    (settleTimer s) (rearmTimers s) (permissionWaits s)
    (placeholderTimers s) (utterances s).

Definition set_recognitionRef (v : option nat) (s : State) : State :=
  mkState (started s) (micEnabled s) (phase s) (micActive s)
    (error_state s) (messages s) (lastTranscriptRef s) v (speakingRef s)
    (thinkingAbortRef s) (micEnabledRef s) (supportsSpeechRecognition s)
    (hasSpeechSynthesis s) (controllers s) (recognitions s) (bootTimer s)
    (settleTimer s) (rearmTimers s) (permissionWaits s)
    (placeholderTimers s) (utterances s).

Definition set_speakingRef (v : bool) (s : State) : State :=
  mkState (started s) (micEnabled s) (phase s) (micActive s)
    (error_state s) (messages s) (lastTranscriptRef s) (recognitionRef s)
    v (thinkingAbortRef s) (micEnabledRef s) (supportsSpeechRecognition s)
    (hasSpeechSynthesis s) (controllers s) (recognitions s) (bootTimer s)
    (settleTimer s) (rearmTimers s) (permissionWaits s)
    (placeholderTimers s) (utterances s).

Definition set_thinkingAbortRef (v : option nat) (s : State) : State :=
  mkState (started s) (micEnabled s) (phase s) (micActive s)
    (error_state s) (messages s) (lastTranscriptRef s) (recognitionRef s)
    (speakingRef s) v (micEnabledRef s) (supportsSpeechRecognition s)
    (hasSpeechSynthesis s) (controllers s) (recognitions s) (bootTimer s)
    (settleTimer s) (rearmTimers s) (permissionWaits s)
    (placeholderTimers s) (utterances s).

Definition set_micEnabledRef (v : bool) (s : State) : State :=
  mkState (started s) (micEnabled s) (phase s) (micActive s)
    (error_state s) (messages s) (lastTranscriptRef s) (recognitionRef s)
    (speakingRef s) (thinkingAbortRef s) v (supportsSpeechRecognition s)
    (hasSpeechSynthesis s) (controllers s) (recognitions s) (bootTimer s)
    (settleTimer s) (rearmTimers s) (permissionWaits s)
    (placeholderTimers s) (utterances s).

Definition set_controllers (v : list AbortController) (s : State) : State :=
  mkState (started s) (micEnabled s) (phase s) (micActive s)
    (error_state s) (messages s) (lastTranscriptRef s) (recognitionRef s)
    (speakingRef s) (thinkingAbortRef s) (micEnabledRef s)
    (supportsSpeechRecognition s) (hasSpeechSynthesis s) v
    (recognitions s) (bootTimer s) (settleTimer s) (rearmTimers s)
    (permissionWaits s) (placeholderTimers s) (utterances s).

Definition set_recognitions (v : list Recognition) (s : State) : State :=
  mkState (started s) (micEnabled s) (phase s) (micActive s)
    (error_state s) (messages s) (lastTranscriptRef s) (recognitionRef s)
    (speakingRef s) (thinkingAbortRef s) (micEnabledRef s)
    (supportsSpeechRecognition s) (hasSpeechSynthesis s) (controllers s) v
    (bootTimer s) (settleTimer s) (rearmTimers s) (permissionWaits s)
    (placeholderTimers s) (utterances s).

Definition set_bootTimer (v : bool) (s : State) : State :=
  mkState (started s) (micEnabled s) (phase s) (micActive s)
    (error_state s) (messages s) (lastTranscriptRef s) (recognitionRef s)
    (speakingRef s) (thinkingAbortRef s) (micEnabledRef s)
    (supportsSpeechRecognition s) (hasSpeechSynthesis s) (controllers s)
    (recognitions s) v (settleTimer s) (rearmTimers s) (permissionWaits s)
    (placeholderTimers s) (utterances s).

Definition set_settleTimer (v : option JarvisPhase) (s : State) : State :=
  mkState (started s) (micEnabled s) (phase s) (micActive s)
    (error_state s) (messages s) (lastTranscriptRef s) (recognitionRef s)
    (speakingRef s) (thinkingAbortRef s) (micEnabledRef s)
    (supportsSpeechRecognition s) (hasSpeechSynthesis s) (controllers s)
    (recognitions s) (bootTimer s) v (rearmTimers s) (permissionWaits s)
    (placeholderTimers s) (utterances s).

Definition set_rearmTimers (v : list JarvisPhase) (s : State) : State :=
  mkState (started s) (micEnabled s) (phase s) (micActive s)
    (error_state s) (messages s) (lastTranscriptRef s) (recognitionRef s)
    (speakingRef s) (thinkingAbortRef s) (micEnabledRef s)
    (supportsSpeechRecognition s) (hasSpeechSynthesis s) (controllers s)
    (recognitions s) (bootTimer s) (settleTimer s) v (permissionWaits s)
    (placeholderTimers s) (utterances s).

Definition set_permissionWaits (v : list JarvisPhase) (s : State) : State :=
  mkState (started s) (micEnabled s) (phase s) (micActive s)
    (error_state s) (messages s) (lastTranscriptRef s) (recognitionRef s)
    (speakingRef s) (thinkingAbortRef s) (micEnabledRef s)
    (supportsSpeechRecognition s) (hasSpeechSynthesis s) (controllers s)
    (recognitions s) (bootTimer s) (settleTimer s) (rearmTimers s) v
    (placeholderTimers s) (utterances s).

Definition set_placeholderTimers (v : nat) (s : State) : State :=
  mkState (started s) (micEnabled s) (phase s) (micActive s)
    (error_state s) (messages s) (lastTranscriptRef s) (recognitionRef s)
    (speakingRef s) (thinkingAbortRef s) (micEnabledRef s)
    (supportsSpeechRecognition s) (hasSpeechSynthesis s) (controllers s)
    (recognitions s) (bootTimer s) (settleTimer s) (rearmTimers s)
    (permissionWaits s) v (utterances s).

Definition set_utterances (v : list text) (s : State) : State :=
  mkState (started s) (micEnabled s) (phase s) (micActive s)
    (error_state s) (messages s) (lastTranscriptRef s) (recognitionRef s)
    (speakingRef s) (thinkingAbortRef s) (micEnabledRef s)
    (supportsSpeechRecognition s) (hasSpeechSynthesis s) (controllers s)
    (recognitions s) (bootTimer s) (settleTimer s) (rearmTimers s)
    (permissionWaits s) (placeholderTimers s) v.

(** *** What an event brings from the platform *)

(** The readings that one [pushMessage] call takes: the two [Date.now()]
    calls and [Math.random().toString(16).slice(2)]. *)
Record Readings := mkReadings {
  now_id : Z;
  random_hex : text;
  now_ts : Z
}.

(** What a [catch (e)] clause may receive: [e instanceof Error] with its
    [message], or any other value. *)
Inductive Thrown := ErrorObject (message : text) | OtherValue.

(** How the request of [callBackend] ends. *)
Inductive FetchOutcome :=
| Threw (e : Thrown)                 (* [fetch], [resp.text()] or
                                        [resp.json()] rejects, or
                                        [data.reply] cannot be trimmed *)
| NotOk (status : Z) (body : text)   (* [!resp.ok], [resp.text()] = body *)
| Json (reply : option text).        (* [resp.ok], [data.reply] or absent *)

(** The message of the rejection a [fetch] gets from an aborted signal
    (the wording is the browser's). *)
Definition AbortError : Thrown :=
  ErrorObject (text_of_string "The user aborted a request.").

Inductive Event :=
| SetStarted (b : bool)              (* the parent renders with [started] *)
| SetMicEnabled (b : bool)           (* the parent renders with [micEnabled] *)
| BootTimeout                        (* 1600 ms *)
| SettleTimeout                      (* 250 ms *)
| RearmTimeout                       (* 450 ms *)
| PermissionGranted (start_ok : bool)(* [getUserMedia] resolves; whether
                                        [rec.start()] then returns *)
| PermissionDenied                   (* [getUserMedia] rejects *)
| RecStart (r : nat)                 (* [onstart] of recognition [r] *)
| RecResult (r : nat) (transcript : option text)
| RecError (r : nat) (err : text) (msg : text)
| RecEnd (r : nat) (rd : Readings)
| SendText (t : text) (rd : Readings)
| FetchSettled (c : nat) (o : FetchOutcome) (rd : Readings)
| PlaceholderTimeout                 (* 900 ms *)
| UtteranceStart                     (* [u.onstart] *)
| UtteranceEnd                       (* [u.onend] or [u.onerror] *)
| Retry.

(** *** Helpers of the hook *)

(** [`${Date.now()}-${Math.random().toString(16).slice(2)}`] *)
Definition message_id (rd : Readings) : text :=
  decimal (now_id rd) ++ text_of_string "-" ++ random_hex rd.

(** [pushMessage(role, content)] *)
Definition pushMessage (rd : Readings) (r : JarvisRole) (c : text)
    (s : State) : State :=
  set_messages
    (messages s ++
     [ {| id := message_id rd; role := r; content := c; ts := now_ts rd |} ])
    s.

(** [rec.onresult = null; rec.onerror = null; rec.onend = null; rec.abort()] *)
Definition detach_and_abort (rc : Recognition) : Recognition :=
  {| captured := captured rc; handlers := false; running := false |}.

(** [stopListeningHard()] *)
Definition stopListeningHard (s : State) : State :=
  let s := set_micActive false s in
  match recognitionRef s with
  | None => s
  | Some r => set_recognitions (alter detach_and_abort r (recognitions s)) s
  end.

(** [micEnabledRef.current ? "listening" : "idle"] *)
Definition next_phase (s : State) : JarvisPhase :=
  if micEnabledRef s then listening else idle.

(** [speak(text)] up to its [await]: either the 900 ms placeholder timer
    or the utterance handed to the synthesizer. *)
Definition speak (t : text) (s : State) : State :=
  let s := stopListeningHard s in
  let s := set_phase speaking s in
  if negb (hasSpeechSynthesis s)
  then set_placeholderTimers (S (placeholderTimers s)) s
  else set_utterances (utterances s ++ [t]) s.

(** The rest of [speak], after either [await]. *)
Definition speak_resume (s : State) : State :=
  set_phase (next_phase s) s.

(** [controller.abort()] on the controller at index [c]. *)
Definition abort (c : nat) (s : State) : State :=
  set_controllers
    (alter (fun k => {| aborted := true; pending := pending k |}) c
       (controllers s)) s.

(** [callBackend(text)] up to [await fetch(...)]. *)
Definition callBackend (t : text) (s : State) : State :=
  let s := stopListeningHard s in
  let s := set_phase thinking s in
  (* const controller = new AbortController() *)
  let c := length (controllers s) in
  let s := set_controllers
             (controllers s ++ [ {| aborted := false; pending := None |} ]) s in
  (* thinkingAbortRef.current?.abort() *)
  let s := match thinkingAbortRef s with
           | Some p => abort p s
           | None => s
           end in
  (* thinkingAbortRef.current = controller *)
  let s := set_thinkingAbortRef (Some c) s in
  (* fetch(apiUrl, { ..., signal: controller.signal }) *)
  set_controllers
    (alter (fun k => {| aborted := aborted k; pending := Some t |}) c
       (controllers s)) s.

(** The [try] block of [callBackend] after the request has ended: the
    trimmed reply, or the message of what was thrown. *)
Definition reply_of (o : FetchOutcome) : text + text :=
  match o with
  | Threw (ErrorObject m) => inr m
  | Threw OtherValue => inr (text_of_string "Unknown error")
  | NotOk st body =>
      inr (if is_empty body
           then text_of_string "Request failed (" ++ decimal st
                ++ text_of_string ")"
           else body)
  | Json r =>
      let reply := trim (default [] r) in
      if is_empty reply
      then inr (text_of_string "Backend returned an empty reply.")
      else inl reply
  end.

Definition newline : text := [10%N].

Definition connection_error (msg : text) : JarvisError :=
  {| title := text_of_string "Connection / response error";
     detail := Some (msg ++ newline ++ newline ++ text_of_string
       "Expected backend response: { reply: string }. Configure VITE_JARVIS_API_URL to your API endpoint.") |}.

(** The rest of [callBackend] for the request of controller [k]. *)
Definition callBackend_resume (k : AbortController) (o : FetchOutcome)
    (rd : Readings) (s : State) : State :=
  match reply_of (if aborted k then Threw AbortError else o) with
  | inl reply => speak reply (pushMessage rd assistant reply s)
  | inr msg =>
      set_phase error (set_error_state (Some (connection_error msg)) s)
  end.

Definition not_supported_error : JarvisError :=
  {| title := text_of_string "SpeechRecognition not supported";
     detail := Some (text_of_string
       "This browser does not support the Web Speech API SpeechRecognition interface. Use Chrome on Android/Desktop.") |}.

(** The arrow is U+2192. *)
Definition permission_error : JarvisError :=
  {| title := text_of_string "Microphone permission denied";
     detail := Some (text_of_string
       "Please allow microphone access to use hands-free voice mode. On Android Chrome: site settings "
       ++ [8594%N] ++ text_of_string " microphone " ++ [8594%N]
       ++ text_of_string " allow.") |}.

(** [rec.onerror]: the detail is [ev.error], followed by a colon, a space
    and [ev.message] when the message is not empty. *)
Definition voice_input_error (err msg : text) : JarvisError :=
  {| title := text_of_string "Voice input error";
     detail := Some (err ++ if is_empty msg then []
                            else text_of_string ": " ++ msg) |}.

(** [startListening()] of a render in which [phase] was [p], up to
    [await getUserMedia]. *)
Definition startListening (p : JarvisPhase) (s : State) : State :=
  if negb (supportsSpeechRecognition s)
  then set_phase error (set_error_state (Some not_supported_error) s)
  else if negb (bool_decide (p = listening)) then s
  else if speakingRef s then s
  else set_permissionWaits (permissionWaits s ++ [p]) s.

(** The rest of [startListening] when the permission is granted: the
    recognition object is created, stored in the ref, given its handlers
    and started.  When [rec.start()] throws, the [catch] block calls
    [setMicEnabled], a name this revision of the hook does not bind, so
    the block is left before [setError] and [setPhase]. *)
Definition startListening_resume (p : JarvisPhase) (start_ok : bool)
    (s : State) : State :=
  let r := length (recognitions s) in
  let s := set_recognitions
             (recognitions s ++
              [ {| captured := p; handlers := true; running := start_ok |} ])
             s in
  let s := set_recognitionRef (Some r) s in
  set_lastTranscriptRef [] s.

(** [rec.onend] *)
Definition onend (rc : Recognition) (rd : Readings) (s : State) : State :=
  let s := set_micActive false s in
  let transcript := trim (lastTranscriptRef s) in
  if is_empty transcript
  then if bool_decide (captured rc = listening) && micEnabledRef s
       then set_rearmTimers (rearmTimers s ++ [captured rc]) s
       else s
  else callBackend transcript (pushMessage rd user transcript s).

(** *** Effects *)

(** The effect on [[micEnabled, started]]. *)
Definition micEffect (s : State) : State :=
  let s := set_micEnabledRef (micEnabled s) s in
  if negb (micEnabled s)
  then let s := stopListeningHard s in
       set_phase
         (match phase s with
          | thinking | speaking | error => phase s
          | _ => if started s then idle else locked
          end) s
  else set_phase (match phase s with idle => listening | p => p end) s.

(** The effect on [[started]], after the cleanup of its previous run. *)
Definition bootEffect (s : State) : State :=
  let s := set_bootTimer false s in
  if negb (started s) then set_phase locked s
  else set_bootTimer true (set_phase booting (set_error_state None s)).

(** The effect on [[phase, started]] in a render whose [phase] is [p],
    after the cleanup of its previous run. *)
Definition autoStartEffect (p : JarvisPhase) (s : State) : State :=
  let s := set_settleTimer None s in
  if negb (started s) then s
  else if negb (micEnabledRef s) then stopListeningHard s
  else if negb (bool_decide (p = listening)) then stopListeningHard s
  else set_settleTimer (Some p) s.

(** The render that follows a handler: the last effect runs again when
    [phase] differs from the one of the previous render. *)
Definition commit (old : State) (s : State) : State :=
  if bool_decide (phase s = phase old) then s
  else autoStartEffect (phase s) s.

(** The effects of a render in which [started] differs (or of the first
    render).  The three effects run in the order of their declaration
    and see the [phase] of that render; the updates they queue take
    effect in the render after it. *)
Definition started_effects (s : State) : State :=
  let rendered := phase s in
  let s1 := bootEffect (micEffect s) in
  let s2 := autoStartEffect rendered s1 in
  if bool_decide (phase s2 = rendered) then s2
  else autoStartEffect (phase s2) s2.

(** *** Mounting *)

Record Config := mkConfig {
  cfg_started : bool;
  cfg_micEnabled : bool;
  cfg_supportsSpeechRecognition : bool;
  cfg_hasSpeechSynthesis : bool
}.

(** The initial values of the [useState] and [useRef] cells. *)
Definition initial (c : Config) : State :=
  {| started := cfg_started c;
     micEnabled := cfg_micEnabled c;
     phase := if cfg_started c then booting else locked;
     micActive := false;
     error_state := None;
     messages := [];
     lastTranscriptRef := [];
     recognitionRef := None;
     speakingRef := false;
     thinkingAbortRef := None;
     micEnabledRef := cfg_micEnabled c;
     supportsSpeechRecognition := cfg_supportsSpeechRecognition c;
     hasSpeechSynthesis := cfg_hasSpeechSynthesis c;
     controllers := [];
     recognitions := [];
     bootTimer := false;
     settleTimer := None;
     rearmTimers := [];
     permissionWaits := [];
     placeholderTimers := 0;
     utterances := [] |}.

(** The first render and its effects. *)
Definition mount (c : Config) : State := started_effects (initial c).

(** *** The transition function *)

Definition step (s : State) (e : Event) : State :=
  match e with
  | SetStarted b =>
      if bool_decide (b = started s) then s
      else started_effects (set_started b s)
  | SetMicEnabled b =>
      if bool_decide (b = micEnabled s) then s
      else commit s (micEffect (set_micEnabled b s))
  | BootTimeout =>
      if bootTimer s
      then let s' := set_bootTimer false s in
           commit s (set_phase (next_phase s') s')
      else s
  | SettleTimeout =>
      match settleTimer s with
      | Some p => commit s (startListening p (set_settleTimer None s))
      | None => s
      end
  | RearmTimeout =>
      match rearmTimers s with
      | p :: rest => commit s (startListening p (set_rearmTimers rest s))
      | [] => s
      end
  | PermissionGranted start_ok =>
      match permissionWaits s with
      | p :: rest =>
          startListening_resume p start_ok (set_permissionWaits rest s)
      | [] => s
      end
  | PermissionDenied =>
      match permissionWaits s with
      | p :: rest =>
          commit s (set_phase error
                      (set_error_state (Some permission_error)
                         (set_permissionWaits rest s)))
      | [] => s
      end
  | RecStart r =>
      match recognitions s !! r with
      | Some rc => if running rc then set_micActive true s else s
      | None => s
      end
  | RecResult r transcript =>
      match recognitions s !! r with
      | Some rc =>
          if running rc && handlers rc
          then set_lastTranscriptRef (trim (default [] transcript)) s
          else s
      | None => s
      end
  | RecError r err msg =>
      match recognitions s !! r with
      | Some rc =>
          if running rc && handlers rc
          then commit s (set_phase error
                           (set_error_state (Some (voice_input_error err msg))
                              (set_micActive false s)))
          else s
      | None => s
      end
  | RecEnd r rd =>
      match recognitions s !! r with
      | Some rc =>
          if running rc
          then let s' := set_recognitions
                           (alter (fun x => {| captured := captured x;
                                               handlers := handlers x;
                                               running := false |}) r
                              (recognitions s)) s in
               if handlers rc then commit s (onend rc rd s') else s'
          else s
      | None => s
      end
  | SendText t rd =>
      let safe := trim t in
      if is_empty safe then s
      else commit s (callBackend safe (pushMessage rd user safe s))
  | FetchSettled c o rd =>
      match controllers s !! c with
      | Some k =>
          match pending k with
          | Some _ =>
              let s' := set_controllers
                          (alter (fun x => {| aborted := aborted x;
                                              pending := None |}) c
                             (controllers s)) s in
              commit s (callBackend_resume k o rd s')
          | None => s
          end
      | None => s
      end
  | PlaceholderTimeout =>
      match placeholderTimers s with
      | S n => commit s (speak_resume (set_placeholderTimers n s))
      | O => s
      end
  | UtteranceStart =>
      match utterances s with
      | _ :: _ => stopListeningHard (set_speakingRef true s)
      | [] => s
      end
  | UtteranceEnd =>
      match utterances s with
      | _ :: rest =>
          commit s (speak_resume
                      (set_speakingRef false (set_utterances rest s)))
      | [] => s
      end
  | Retry =>
      commit s (set_phase (next_phase s) (set_error_state None s))
  end.

Definition run (s : State) (es : list Event) : State := fold_left step es s.

(** The states of a session: a mount followed by any events. *)
Definition reachable (s : State) : Prop :=
  exists c es, s = run (mount c) es.

(** *** Notions used by the properties *)

(** Only whitespace, or nothing at all. *)
Definition blank (t : text) : Prop := forallb is_whitespace t = true.

(** A request that has not been answered yet. *)
Definition in_flight (k : AbortController) : bool :=
  match pending k with Some _ => true | None => false end.

(** A request that is in flight and was not cancelled. *)
Definition live (k : AbortController) : bool :=
  in_flight k && negb (aborted k).

(** The failures of a reply request: a transport error, a status that is
    not 2xx, a reply that is empty once trimmed. *)
Definition failed (o : FetchOutcome) : Prop :=
  match o with
  | Threw _ => True
  | NotOk _ _ => True
  | Json r => blank (default [] r)
  end.

(** The events that complete an utterance or a reply: a text that is not
    blank is submitted, a capture session ends with a transcript, a live
    request is answered with a reply that is not blank. *)
Definition completes (s : State) (e : Event) : bool :=
  match e with
  | SendText t _ => negb (is_empty (trim t))
  | RecEnd r _ =>
      match recognitions s !! r with
      | Some rc => running rc && handlers rc
                   && negb (is_empty (trim (lastTranscriptRef s)))
      | None => false
      end
  | FetchSettled c o _ =>
      match controllers s !! c with
      | Some k => live k && match reply_of o with
                            | inl _ => true
                            | inr _ => false
                            end
      | None => false
      end
  | _ => false
  end.

(** The [Date.now()] reading an event brings for the timestamp. *)
Definition clock (e : Event) : list Z :=
  match e with
  | RecEnd _ rd | SendText _ rd | FetchSettled _ _ rd => [now_ts rd]
  | _ => []
  end.

Definition clocks (es : list Event) : list Z := flat_map clock es.

(** *** Sample inputs *)

(** A started hook on a platform with speech recognition. *)
Definition sample_config (mic tts : bool) : Config :=
  {| cfg_started := true; cfg_micEnabled := mic;
     cfg_supportsSpeechRecognition := true; cfg_hasSpeechSynthesis := tts |}.

Definition sample_readings (t : Z) : Readings :=
  {| now_id := t; random_hex := text_of_string "9f3a"; now_ts := t |}.

Definition lights_request : text := text_of_string "turn on the lights".

Definition lights_reply : text := text_of_string "Lights are on.".

(** Text mode after boot, with one request in flight. *)
Definition sample_thinking : State :=
  run (mount (sample_config false false))
    [BootTimeout; SendText lights_request (sample_readings 5)].

(** The same with a second request issued before the first is answered. *)
Definition sample_superseded : State :=
  run (mount (sample_config false false))
    [BootTimeout; SendText lights_request (sample_readings 5);
     SendText lights_request (sample_readings 6)].

(** Voice mode after boot, with one capture session running. *)
Definition sample_listening : State :=
  run (mount (sample_config true true))
    [BootTimeout; SettleTimeout; PermissionGranted true; RecStart 0].

(** What every state of a session satisfies. *)
Record consistent (s : State) : Prop := mkConsistent {
  ref_follows_prop : micEnabledRef s = micEnabled s;
  listening_mic_on : phase s = listening -> micEnabledRef s = true;
  idle_mic_off : phase s = idle -> micEnabledRef s = false;
  live_is_current : forall c k,
    controllers s !! c = Some k -> live k = true ->
    thinkingAbortRef s = Some c;
  captures_listening :
    Forall (fun rc => captured rc = listening) (recognitions s);
  waits_listening : Forall (fun p => p = listening) (permissionWaits s);
  captures_supported :
    recognitions s <> [] \/ permissionWaits s <> [] ->
    supportsSpeechRecognition s = true;
  current_allocated : forall p,
    thinkingAbortRef s = Some p -> (p < length (controllers s))%nat
}.

(** *** The rest of the hook *)

(** The cleanups React runs when the hook unmounts: the boot timer and
    the settle timer are cleared, then the last effect aborts the current
    request and stops the capture ([speechSynthesis.cancel()] leaves the
    queued utterances to report their end).  State updates of a component
    that unmounts are discarded; only the refs and the heap matter. *)
Definition unmount (s : State) : State :=
  let s := set_bootTimer false s in
  let s := set_settleTimer None s in
  let s := match thinkingAbortRef s with
           | Some p => abort p s
           | None => s
           end in
  stopListeningHard s.

(** *** Further notions used by the properties *)

Definition is_user (m : JarvisMessage) : bool :=
  match role m with user => true | assistant => false end.

Definition is_assistant (m : JarvisMessage) : bool :=
  match role m with assistant => true | user => false end.

(** How many elements of [l] satisfy [f]. *)
Definition count {A} (f : A -> bool) (l : list A) : nat :=
  length (List.filter f l).

(** A text that is not empty and has no whitespace at either end. *)
Definition trimmed (t : text) : Prop := t <> [] /\ trim t = t.


(** The capture session [r] delivers nothing any more. *)
Definition stopped (r : nat) (s : State) : Prop :=
  match recognitions s !! r with
  | Some rc => running rc = false
  | None => True
  end.

(** The events of the capture session [r]. *)
Definition of_capture (r : nat) (e : Event) : bool :=
  match e with
  | RecStart r' | RecResult r' _ | RecError r' _ _ | RecEnd r' _ =>
      bool_decide (r' = r)
  | _ => false
  end.

(** *** Further sample inputs *)

Definition sample_unsupported_config : Config :=
  {| cfg_started := true; cfg_micEnabled := true;
     cfg_supportsSpeechRecognition := false; cfg_hasSpeechSynthesis := true |}.

(** Voice mode after boot on a platform without speech recognition. *)
Definition sample_unsupported : State :=
  run (mount sample_unsupported_config) [BootTimeout].

(** Voice mode after boot, waiting for the microphone permission. *)
Definition sample_waiting : State :=
  run (mount (sample_config true true)) [BootTimeout; SettleTimeout].

(** Voice mode with a capture session that has heard a request. *)
Definition sample_heard : State :=
  run (mount (sample_config true true))
    [BootTimeout; SettleTimeout; PermissionGranted true; RecStart 0;
     RecResult 0 (Some lights_request)].

(** Text mode with speech synthesis, one request in flight. *)
Definition sample_thinking_aloud : State :=
  run (mount (sample_config false true))
    [BootTimeout; SendText lights_request (sample_readings 5)].

(** Voice mode after a denied microphone permission. *)
Definition sample_denied : State :=
  run (mount (sample_config true true))
    [BootTimeout; SettleTimeout; PermissionDenied].

Definition never_mind : text := text_of_string "never mind".

(** Text mode: a second text is sent before the first is answered, the
    aborted first request rejects (its [catch] shows the error card), the
    reply to the second starts to be spoken, and the user switches the mic
    on and clicks Retry on the card. *)
Definition retry_while_speaking : list Event :=
  [BootTimeout;
   SendText lights_request (sample_readings 5);
   SendText never_mind (sample_readings 6);
   FetchSettled 0 (Threw AbortError) (sample_readings 7);
   FetchSettled 1 (Json (Some lights_reply)) (sample_readings 8);
   UtteranceStart;
   SetMicEnabled true;
   Retry].

Definition sample_retry_while_speaking : State :=
  run (mount (sample_config false true)) retry_while_speaking.

(** Voice mode: the permission prompt of the first capture is still open
    when the user switches to text mode and sends a text; the prompt is
    answered while the reply is being spoken. *)
Definition permission_while_speaking : list Event :=
  [BootTimeout; SettleTimeout;
   SetMicEnabled false;
   SendText lights_request (sample_readings 5);
   FetchSettled 0 (Json (Some lights_reply)) (sample_readings 8);
   UtteranceStart;
   PermissionGranted true;
   RecStart 0].

Definition sample_permission_while_speaking : State :=
  run (mount (sample_config true true)) permission_while_speaking.



End VoiceLoop.

(* ===================================================================== *)
(** ** The view of the controller *)
(* ===================================================================== *)

Module View.
Import VoiceLoop.

(** The [mode] prop of [VoiceVisualizer]. *)
Inductive Mode := mode_listening | mode_thinking | mode_speaking.

#[global] Instance Mode_eq_dec : EqDecision Mode.
Proof. solve_decision. Defined.

(** [JarvisCore]: the [active] prop it gives the visualizer,
    [micEnabled && (phase is listening, speaking or thinking)]. *)
Definition visualizer_active (micEnabled : bool) (p : JarvisPhase) : bool :=
  micEnabled && (bool_decide (p = listening) || bool_decide (p = speaking)
                 || bool_decide (p = thinking)).

(** [JarvisCore]: the [mode] prop it gives the visualizer. *)
Definition visualizer_mode (p : JarvisPhase) : Mode :=
  match p with
  | thinking => mode_thinking
  | speaking => mode_speaking
  | _ => mode_listening
  end.

(** [VoiceVisualizer]: which ring is animated. *)
Definition isListening (active : bool) (mode : Mode) : bool :=
  active && bool_decide (mode = mode_listening).

Definition isThinking (mode : Mode) : bool := bool_decide (mode = mode_thinking).

Definition isSpeaking (mode : Mode) : bool := bool_decide (mode = mode_speaking).

(** [VoiceVisualizer]: [on], whether the wave bars move. *)
Definition bars_on (active : bool) (mode : Mode) : bool :=
  isListening active mode || isSpeaking mode || isThinking mode.

(** [VoiceVisualizer]: the caption under the bars. *)
Definition caption (mode : Mode) : string :=
  match mode with
  | mode_listening => "LISTENING"
  | mode_thinking => "THINKING"
  | mode_speaking => "SPEAKING"
  end.

End View.

(* ===================================================================== *)
(** ** The application: gate, controller and text input wired together *)
(* ===================================================================== *)

Module App.
Import VoiceLoop.

(** The state of [Index] ([started]; [pinAuthorized] lives in the gate),
    of [JarvisCore] ([micEnabled]), of the hook it calls and of
    [TextInputPanel] ([value]). *)
Record App := mkApp {
  gate : PinGate.Gate;
  app_started : bool;
  app_micEnabled : bool;
  loop : State;
  value : text
}.

Inductive Event :=
| GateEvent (e : PinGate.Event)     (* the keypad and timers of the gate *)
| StartMachine                      (* the button of [StartMachineModal] *)
| ToggleMic                         (* [MicToggleButton] *)
| TypeText (v : text)               (* [onChange] of the text input *)
| Submit (rd : Readings)            (* SEND, or Enter in the input *)
| ClickRetry                        (* the Retry button of the error card *)
| Platform (e : VoiceLoop.Event).   (* timers and callbacks of the hook *)

(** The events the platform delivers to the hook; the other four come
    from its props and from the functions it returns. *)
Definition is_platform (e : VoiceLoop.Event) : bool :=
  match e with
  | SetStarted _ | SetMicEnabled _ | SendText _ _ | Retry => false
  | _ => true
  end.

(** The hook of a page that has just loaded: [started] is false and
    [JarvisCore] starts with [micEnabled] true. *)
Definition page_config (sr tts : bool) : Config :=
  {| cfg_started := false; cfg_micEnabled := true;
     cfg_supportsSpeechRecognition := sr; cfg_hasSpeechSynthesis := tts |}.

Definition init (sr tts : bool) : App :=
  {| gate := PinGate.init; app_started := false; app_micEnabled := true;
     loop := mount (page_config sr tts); value := [] |}.

(** [StartMachineModal open={!started && pinAuthorized}] *)
Definition modal_open (a : App) : bool :=
  negb (app_started a) && PinGate.pinAuthorized (gate a).

(** [disabled={!started || phase === "booting"}] of the mic toggle and of
    the text panel. *)
Definition controls_disabled (a : App) : bool :=
  negb (app_started a) || bool_decide (phase (loop a) = booting).

(** [{!micEnabled ? <TextInputPanel ... /> : null}] *)
Definition panel_shown (a : App) : bool := negb (app_micEnabled a).

(** [{error ? <div> ... Retry ... </div> : null}] *)
Definition retry_shown (a : App) : bool :=
  match error_state (loop a) with Some _ => true | None => false end.

(** [canSend] of [TextInputPanel]. *)
Definition canSend (a : App) : bool :=
  negb (controls_disabled a) && negb (is_empty (trim (value a))).

(** [setStarted(true)]: the hook renders with the new prop. *)
Definition start (a : App) : App :=
  {| gate := gate a; app_started := true; app_micEnabled := app_micEnabled a;
     loop := VoiceLoop.step (loop a) (SetStarted true); value := value a |}.

(** Whether this event of the gate calls [onAuthorized]. *)
Definition authorizes (g : PinGate.Gate) (e : PinGate.Event) : bool :=
  match e with
  | PinGate.AnimationComplete => PinGate.gate_open g && PinGate.animating g
  | _ => false
  end.

(** One event of the page.  The main area ignores the pointer until
    [started]; the text panel is mounted, with an empty value, while the
    mic is switched off. *)
Definition step (a : App) (e : Event) : App :=
  match e with
  | GateEvent ge =>
      let a' := {| gate := PinGate.step (gate a) ge;
                   app_started := app_started a;
                   app_micEnabled := app_micEnabled a;
                   loop := loop a; value := value a |} in
      if authorizes (gate a) ge then start a' else a'
  | StartMachine => if modal_open a then start a else a
  | ToggleMic =>
      if controls_disabled a then a
      else let next := negb (app_micEnabled a) in
           {| gate := gate a; app_started := app_started a;
              app_micEnabled := next;
              loop := VoiceLoop.step (loop a) (SetMicEnabled next);
              value := [] |}
  | TypeText v =>
      if panel_shown a && negb (controls_disabled a)
      then {| gate := gate a; app_started := app_started a;
              app_micEnabled := app_micEnabled a; loop := loop a;
              value := v |}
      else a
  | Submit rd =>
      if panel_shown a && negb (controls_disabled a)
      then let t := trim (value a) in
           if is_empty t then a
           else {| gate := gate a; app_started := app_started a;
                   app_micEnabled := app_micEnabled a;
                   loop := VoiceLoop.step (loop a) (SendText t rd);
                   value := [] |}
      else a
  | ClickRetry =>
      if app_started a && retry_shown a
      then {| gate := gate a; app_started := app_started a;
              app_micEnabled := app_micEnabled a;
              loop := VoiceLoop.step (loop a) Retry; value := value a |}
      else a
  | Platform pe =>
      if is_platform pe
      then {| gate := gate a; app_started := app_started a;
              app_micEnabled := app_micEnabled a;
              loop := VoiceLoop.step (loop a) pe; value := value a |}
      else a
  end.

Definition run (a : App) (es : list Event) : App := fold_left step es a.

(** The events that stem from the user acting on the main area. *)
Definition is_interaction (e : Event) : bool :=
  match e with
  | StartMachine | ToggleMic | TypeText _ | Submit _ | ClickRetry => true
  | _ => false
  end.

(** What holds of every state of the page. *)
Record wired (sr tts : bool) (a : App) : Prop := mkWired {
  started_is_authorized : app_started a = PinGate.pinAuthorized (gate a);
  prop_started : started (loop a) = app_started a;
  prop_micEnabled : micEnabled (loop a) = app_micEnabled a;
  loop_reachable : reachable (loop a);
  behind_the_gate :
    PinGate.pinAuthorized (gate a) = false ->
    loop a = mount (page_config sr tts) /\ value a = []
    /\ app_micEnabled a = true
}.

End App.

(* ===================================================================== *)
(** ** Properties of the access gate *)
(* ===================================================================== *)

Module GateFacts.
Import PinGate.

Lemma run_app g es1 es2 : run g (es1 ++ es2) = run (run g es1) es2.
Proof. apply fold_left_app. Qed.

(** Fewer than six digits only fill the buffer. *)
Lemma enter_short ds : forall g,
  animating g = false -> pinAuthorized g = false ->
  (length (digits g) + length ds < 6)%nat ->
  enter ds g = set_digits (digits g ++ ds) g.
Proof.
  induction ds as [|d ds IH]; intros g Han Hau Hlen.
  - rewrite app_nil_r. destruct g; reflexivity.
  - change (enter (d :: ds) g) with (enter ds (step g (AddDigit d))).
    simpl in Hlen.
    assert (Hstep : step g (AddDigit d) = set_digits (digits g ++ [d]) g).
    { assert (H6 : (6 <=? length (digits g))%nat = false)
        by (apply Nat.leb_gt; lia).
      assert (Hne : (length (digits g ++ [d]) =? 6)%nat = false)
        by (apply Nat.eqb_neq; rewrite length_app; simpl; lia).
      unfold step, gate_open, addDigit, tryValidateIfComplete.
      rewrite Hau, Han. cbv zeta. cbn [negb]. rewrite H6, Hne.
      reflexivity. }
    rewrite Hstep, IH; simpl; try assumption.
    + rewrite <- app_assoc. reflexivity.
    + rewrite length_app. simpl. lia.
Qed.

(** The sixth digit triggers the validation. *)
Lemma enter_six ds :
  length ds = 6%nat ->
  enter ds init =
    tryValidateIfComplete ds (set_digits ds init).
Proof.
  intros Hlen.
  destruct (exists_last (l := ds)) as (ds' & d & ->).
  { intros ->. discriminate. }
  rewrite length_app in Hlen. simpl in Hlen.
  unfold enter. rewrite map_app, run_app.
  fold (enter ds' init). rewrite enter_short by (simpl; auto; lia).
  assert (H6 : (6 <=? length ds')%nat = false) by (apply Nat.leb_gt; lia).
  unfold run. cbn [fold_left step map]. unfold gate_open, addDigit.
  cbn [set_digits init pinAuthorized animating digits negb app].
  rewrite H6. reflexivity.
Qed.

(** In a sealed gate no event changes the buffer or the status, and
    only the end of the animation calls [onAuthorized]. *)
Lemma sealed_step g e :
  sealed g ->
  sealed (step g e) /\ digits (step g e) = digits g
  /\ status (step g e) = status g
  /\ authorizedCalls (step g e) =
       (if is_AnimationComplete e then 1%nat else authorizedCalls g).
Proof.
  intros [Hd [(Ha & Hp & Hc) | (Ha & Hp & Hc)]];
    destruct e; unfold sealed, step, gate_open, addDigit, backspace, clearAll;
    rewrite ?Hd, ?Ha, ?Hp; simpl; rewrite ?Hd, ?Ha, ?Hp, ?Hc; auto 10.
Qed.

Lemma sealed_run es : forall g,
  sealed g ->
  digits (run g es) = digits g /\ status (run g es) = status g
  /\ authorizedCalls (run g es) =
       (if existsb is_AnimationComplete es then 1%nat else authorizedCalls g).
Proof.
  induction es as [|e es IH]; intros g Hs; [auto|].
  destruct (sealed_step g e Hs) as (Hs' & Hdig & Hst & Hcalls).
  destruct (IH _ Hs') as (IH1 & IH2 & IH3).
  change (run g (e :: es)) with (run (step g e) es).
  rewrite IH1, IH2, IH3, Hdig, Hst, Hcalls. simpl.
  destruct (is_AnimationComplete e), (existsb is_AnimationComplete es); auto.
Qed.

Lemma passed_sealed ds :
  sealed (set_animating true (set_status passed (set_digits ds init))).
Proof. unfold sealed. simpl. auto. Qed.

(** The same from any open gate with an empty buffer. *)
Lemma enter_six_from g ds :
  animating g = false -> pinAuthorized g = false -> digits g = [] ->
  length ds = 6%nat ->
  enter ds g = tryValidateIfComplete ds (set_digits ds g).
Proof.
  intros Han Hau Hd Hlen.
  destruct (exists_last (l := ds)) as (ds' & d & ->).
  { intros ->. discriminate. }
  rewrite length_app in Hlen. simpl in Hlen.
  unfold enter. rewrite map_app, run_app.
  fold (enter ds' g). rewrite enter_short by (rewrite ?Hd; simpl; auto; lia).
  rewrite Hd. cbn [app].
  assert (H6 : (6 <=? length ds')%nat = false) by (apply Nat.leb_gt; lia).
  unfold run. cbn [fold_left step map]. unfold gate_open, addDigit.
  cbn [set_digits pinAuthorized animating digits].
  rewrite Hau, Han. cbn [negb]. rewrite H6.
  destruct g; reflexivity.
Qed.

(** Once the animation plays or the gate has authorized, and no
    cool-down timer is pending, no event changes the buffer. *)
Lemma closing_step g e :
  denyTimers g = 0%nat -> animating g = true \/ pinAuthorized g = true ->
  (denyTimers (step g e) = 0%nat
   /\ (animating (step g e) = true \/ pinAuthorized (step g e) = true))
  /\ digits (step g e) = digits g.
Proof.
  intros Hd H.
  destruct e; unfold step, gate_open, addDigit, backspace, clearAll;
    rewrite ?Hd;
    destruct (pinAuthorized g) eqn:Hp, (animating g) eqn:Ha;
    cbn [negb andb]; rewrite ?Hd, ?Hp, ?Ha;
    try (destruct H; discriminate);
    simpl; rewrite ?Hd, ?Hp, ?Ha; auto.
Qed.

Lemma closing_run es : forall g,
  denyTimers g = 0%nat -> animating g = true \/ pinAuthorized g = true ->
  digits (run g es) = digits g.
Proof.
  induction es as [|e es IH]; intros g Hd H; [reflexivity|].
  destruct (closing_step g e Hd H) as ((Hd' & H') & Hdig).
  change (run g (e :: es)) with (run (step g e) es).
  rewrite (IH _ Hd' H'). exact Hdig.
Qed.

(** C3, as the code has it.  Digits are entered into an open gate that
    is idle with an empty buffer.  Fewer than six digits leave the status
    [idle]; with the sixth digit the status becomes [passed] when the
    digits spell the required PIN and [denied] otherwise.  After a denial
    the cool-down timer empties the buffer and puts the status back to
    [idle]; after a pass the buffer keeps the six digits whatever happens
    next, provided no cool-down timer of an earlier denial was pending. *)
Theorem gate_resolution (g0 : Gate) (ds : list string) :
  pinAuthorized g0 = false -> animating g0 = false ->
  status g0 = idle -> digits g0 = [] ->
  let g := enter ds g0 in
  ((length ds < 6)%nat -> status g = idle /\ digits g = ds) /\
  (length ds = 6%nat ->
     (join ds = REQUIRED_PIN /\ status g = passed /\ digits g = ds
      /\ (denyTimers g0 = 0%nat -> forall es, digits (run g es) = ds))
     \/
     (join ds <> REQUIRED_PIN /\ status g = denied /\ digits g = ds
      /\ status (step g DenyTimeout) = idle
      /\ digits (step g DenyTimeout) = [])).
Proof.
  intros Hau Han Hst Hd. cbv zeta. split.
  - intros Hlen. rewrite enter_short by (rewrite ?Hd; simpl; auto).
    rewrite Hd. simpl. auto.
  - intros Hlen. rewrite (enter_six_from g0 ds Han Hau Hd Hlen).
    unfold tryValidateIfComplete. rewrite Hlen. cbn [Nat.eqb negb].
    destruct (String.eqb_spec (join ds) REQUIRED_PIN) as [Heq | Hne].
    + left. repeat split; auto.
      intros Ht es. rewrite closing_run; simpl; auto.
    + right. repeat split; auto.
Qed.

(** [gate_resolution] at the fresh gate and the digits 1,2,3,4,5,6: a
    denial, and the empty buffer once the cool-down timer has fired. *)
Lemma gate_resolution_witness :
  let ds := ["1"; "2"; "3"; "4"; "5"; "6"] in
  length ds = 6%nat /\
  status (enter ds init) = denied /\
  digits (step (enter ds init) DenyTimeout) = [].
Proof.
  split; [reflexivity|].
  destruct (proj2 (gate_resolution init ["1"; "2"; "3"; "4"; "5"; "6"]
                     eq_refl eq_refl eq_refl eq_refl) eq_refl)
    as [(Heq & _) | (_ & Hst & _ & _ & Hdig)].
  - discriminate Heq.
  - split; assumption.
Defined.

(** Why the proviso: a denial whose last digit is corrected within the
    cool-down passes with the timer of the denial still pending, and that
    timer then empties the buffer while the animation plays. *)
Lemma pending_timer_after_pass :
  let g := run init corrected_in_time in
  status g = passed /\ digits g = pin_digits /\ denyTimers g = 1%nat /\
  digits (step g DenyTimeout) = [] /\ status (step g DenyTimeout) = idle /\
  animating (step g DenyTimeout) = true.
Proof. vm_compute. repeat split; reflexivity. Qed.

(** C3 as worded fails for the required PIN: once it is entered, no
    sequence of events ever empties the digit buffer. *)
Lemma digits_kept_after_pass :
  ~ exists es, digits (run (enter pin_digits init) es) = [].
Proof.
  intros [es Hes].
  rewrite (enter_six pin_digits eq_refl) in Hes.
  change (tryValidateIfComplete pin_digits (set_digits pin_digits init))
    with (set_animating true (set_status passed (set_digits pin_digits init)))
    in Hes.
  destruct (sealed_run es _ (passed_sealed pin_digits)) as (Hdig & _).
  rewrite Hdig in Hes. discriminate Hes.
Qed.

(** C5: entering 2,2,3,3,6,6 makes the status [passed]; whatever events
    follow, the status stays [passed] and [onAuthorized] has been called
    once if the confirmation animation has completed and not at all
    before: it is never called a second time. *)
Theorem pin_authorizes_once :
  status (enter pin_digits init) = passed /\
  forall es,
    status (run (enter pin_digits init) es) = passed /\
    authorizedCalls (run (enter pin_digits init) es) =
      (if existsb is_AnimationComplete es then 1%nat else 0%nat).
Proof.
  split; [reflexivity|]. intros es.
  rewrite (enter_six pin_digits eq_refl).
  change (tryValidateIfComplete pin_digits (set_digits pin_digits init))
    with (set_animating true (set_status passed (set_digits pin_digits init))).
  destruct (sealed_run es _ (passed_sealed pin_digits)) as (_ & Hst & Hc).
  split; assumption.
Qed.

End GateFacts.

(* ===================================================================== *)
(** ** Properties of the voice phase controller *)
(* ===================================================================== *)

Module VoiceFacts.
Import VoiceLoop.

(** *** The invariant of a session *)

(** A change of fields the invariant does not read. *)
Ltac frame H := destruct H; constructor; simpl; auto.

Lemma alter_nil_inv {A} (f : A -> A) i (l : list A) :
  alter f i l <> [] -> l <> [].
Proof. intros H ->. apply H. reflexivity. Qed.

Lemma consistent_stopListeningHard s :
  consistent s -> consistent (stopListeningHard s).
Proof.
  intros [H1 H2 H3 H4 H5 H6 H7 H8]. unfold stopListeningHard. simpl.
  destruct (recognitionRef s) as [r|]; constructor; simpl; auto.
  - apply Forall_alter; auto.
  - intros [H|H]; apply H7; eauto using alter_nil_inv.
Qed.

(** Entering a phase other than [listening] and [idle]. *)
Lemma consistent_set_phase_busy p s :
  p <> listening -> p <> idle ->
  consistent s -> consistent (set_phase p s).
Proof. intros Hl Hi H. frame H; intros; congruence. Qed.

Lemma consistent_speak_resume s :
  consistent s -> consistent (speak_resume s).
Proof.
  intros H. unfold speak_resume, next_phase.
  frame H; destruct (micEnabledRef s); congruence.
Qed.

Lemma consistent_speak t s : consistent s -> consistent (speak t s).
Proof.
  intros H. unfold speak.
  assert (H' := consistent_set_phase_busy speaking _ ltac:(discriminate)
                  ltac:(discriminate) (consistent_stopListeningHard s H)).
  cbv zeta. destruct (negb _); frame H'.
Qed.

Lemma consistent_pushMessage rd r c s :
  consistent s -> consistent (pushMessage rd r c s).
Proof. intros H. unfold pushMessage. frame H. Qed.

Lemma live_alter_abort (l : list AbortController) p c k :
  alter (fun k => {| aborted := true; pending := pending k |}) p l !! c = Some k ->
  live k = true ->
  c <> p /\ l !! c = Some k.
Proof.
  intros Hl Hk. destruct (decide (p = c)) as [->|Hne].
  - rewrite list_lookup_alter_eq in Hl.
    destruct (l !! c); simpl in Hl; [|discriminate].
    injection Hl as <-. unfold live in Hk. simpl in Hk.
    rewrite andb_false_r in Hk. discriminate.
  - rewrite list_lookup_alter_ne in Hl by assumption. auto.
Qed.

Lemma consistent_callBackend t s :
  consistent s -> consistent (callBackend t s).
Proof.
  intros H. unfold callBackend. cbv zeta.
  assert (H' := consistent_set_phase_busy thinking _ ltac:(discriminate)
                  ltac:(discriminate) (consistent_stopListeningHard s H)).
  set (s1 := set_phase thinking (stopListeningHard s)) in *.
  clearbody s1. clear H. destruct H' as [H1 H2 H3 H4 H5 H6 H7 H8].
  unfold abort. simpl.
  destruct (thinkingAbortRef s1) as [p|] eqn:Hp; constructor; simpl; auto;
    try (intros ? [= <-]; rewrite ?length_alter, length_app; simpl; lia).
  - intros c k Hc Hk.
    destruct (decide (c = length (controllers s1))) as [->|Hne]; [reflexivity|].
    exfalso.
    rewrite list_lookup_alter_ne in Hc by congruence.
    apply live_alter_abort in Hc as [Hcp Hc]; [|assumption].
    apply lookup_snoc_Some in Hc as [[Hlt Hc] | [Heq _]]; [|congruence].
    specialize (H4 _ _ Hc Hk). congruence.
  - intros c k Hc Hk.
    destruct (decide (c = length (controllers s1))) as [->|Hne]; [reflexivity|].
    exfalso.
    rewrite list_lookup_alter_ne in Hc by congruence.
    apply lookup_snoc_Some in Hc as [[Hlt Hc] | [Heq _]]; [|congruence].
    specialize (H4 _ _ Hc Hk). congruence.
Qed.

Lemma consistent_error e s :
  consistent s -> consistent (set_phase error (set_error_state e s)).
Proof.
  intros H. apply consistent_set_phase_busy; [discriminate..|]. frame H.
Qed.

Lemma consistent_callBackend_resume k o rd s :
  consistent s -> consistent (callBackend_resume k o rd s).
Proof.
  intros H. unfold callBackend_resume.
  destruct (reply_of _).
  - apply consistent_speak, consistent_pushMessage, H.
  - apply consistent_error, H.
Qed.

Lemma consistent_startListening p s :
  consistent s -> consistent (startListening p s).
Proof.
  intros H. unfold startListening.
  destruct (supportsSpeechRecognition s) eqn:Hs; simpl.
  - case_bool_decide as Hp; simpl; [|assumption].
    destruct (speakingRef s); [assumption|].
    frame H. apply Forall_app. auto.
  - apply consistent_error, H.
Qed.

Lemma consistent_startListening_resume ok s :
  supportsSpeechRecognition s = true ->
  consistent s -> consistent (startListening_resume listening ok s).
Proof.
  intros Hs H. unfold startListening_resume. frame H.
  apply Forall_app. auto.
Qed.

Lemma consistent_onend rc rd s :
  consistent s -> consistent (onend rc rd s).
Proof.
  intros H. unfold onend. cbv zeta.
  assert (H' : consistent (set_micActive false s)) by frame H.
  destruct (is_empty _).
  - destruct (_ && _); [frame H'|assumption].
  - apply consistent_callBackend, consistent_pushMessage, H'.
Qed.

(** The effect on [[micEnabled, started]] brings the ref and the phase
    in line with the prop, whatever they were. *)
Lemma consistent_micEffect s :
  (forall c k, controllers s !! c = Some k -> live k = true ->
               thinkingAbortRef s = Some c) ->
  Forall (fun rc => captured rc = listening) (recognitions s) ->
  Forall (fun p => p = listening) (permissionWaits s) ->
  (recognitions s <> [] \/ permissionWaits s <> [] ->
   supportsSpeechRecognition s = true) ->
  (forall p, thinkingAbortRef s = Some p -> (p < length (controllers s))%nat) ->
  consistent (micEffect s).
Proof.
  intros H4 H5 H6 H7 H8. unfold micEffect, stopListeningHard. simpl.
  destruct (micEnabled s) eqn:Hm; simpl.
  - constructor; simpl; auto.
    destruct (phase s); congruence.
  - destruct (recognitionRef s) as [r|]; simpl.
    + constructor; simpl; auto.
      * destruct (phase s), (started s); congruence.
      * apply Forall_alter; auto.
      * intros [H|H]; apply H7; eauto using alter_nil_inv.
    + constructor; simpl; auto.
      destruct (phase s), (started s); congruence.
Qed.

Lemma consistent_bootEffect s : consistent s -> consistent (bootEffect s).
Proof.
  intros H. unfold bootEffect. simpl.
  destruct (started s); simpl; frame H; discriminate.
Qed.

Lemma consistent_autoStartEffect p s :
  consistent s -> consistent (autoStartEffect p s).
Proof.
  intros H. unfold autoStartEffect. cbv zeta.
  assert (H' : consistent (set_settleTimer None s)) by frame H.
  repeat (destruct (negb _);
          [first [assumption | apply consistent_stopListeningHard, H']|]).
  frame H'.
Qed.

Lemma consistent_commit old s : consistent s -> consistent (commit old s).
Proof.
  intros H. unfold commit.
  case_bool_decide; [assumption|]. apply consistent_autoStartEffect, H.
Qed.

Lemma consistent_started_effects s :
  (forall c k, controllers s !! c = Some k -> live k = true ->
               thinkingAbortRef s = Some c) ->
  Forall (fun rc => captured rc = listening) (recognitions s) ->
  Forall (fun p => p = listening) (permissionWaits s) ->
  (recognitions s <> [] \/ permissionWaits s <> [] ->
   supportsSpeechRecognition s = true) ->
  (forall p, thinkingAbortRef s = Some p -> (p < length (controllers s))%nat) ->
  consistent (started_effects s).
Proof.
  intros H4 H5 H6 H7 H8. unfold started_effects. cbv zeta.
  assert (H : consistent (autoStartEffect (phase s) (bootEffect (micEffect s))))
    by auto using consistent_autoStartEffect, consistent_bootEffect,
                  consistent_micEffect.
  case_bool_decide; [assumption|]. apply consistent_autoStartEffect, H.
Qed.

Lemma consistent_mount c : consistent (mount c).
Proof.
  apply consistent_started_effects; simpl; auto.
  - intros i k Hk. rewrite lookup_nil in Hk. discriminate.
  - intros [H|H]; congruence.
  - discriminate.
Qed.

Lemma consistent_step s e : consistent s -> consistent (step s e).
Proof.
  intros H. destruct e; simpl.
  - (* SetStarted *)
    case_bool_decide; [assumption|].
    destruct H. apply consistent_started_effects; simpl; auto.
  - (* SetMicEnabled *)
    case_bool_decide; [assumption|].
    destruct H. apply consistent_commit, consistent_micEffect; simpl; auto.
  - (* BootTimeout *)
    destruct (bootTimer s); [|assumption].
    apply consistent_commit.
    change (consistent (speak_resume (set_bootTimer false s))).
    apply consistent_speak_resume. frame H.
  - (* SettleTimeout *)
    destruct (settleTimer s); [|assumption].
    apply consistent_commit, consistent_startListening. frame H.
  - (* RearmTimeout *)
    destruct (rearmTimers s) eqn:Hr; [assumption|].
    apply consistent_commit, consistent_startListening. frame H.
  - (* PermissionGranted *)
    destruct (permissionWaits s) as [|p rest] eqn:Hw; [assumption|].
    assert (Hp : p = listening /\ Forall (fun p => p = listening) rest).
    { destruct H as [_ _ _ _ _ H6 _ _]. rewrite Hw in H6.
      inversion H6; auto. }
    destruct Hp as [-> Hrest].
    apply consistent_startListening_resume.
    + simpl. apply (captures_supported s H). right. rewrite Hw. discriminate.
    + destruct H as [H1 H2 H3 H4 H5 H6 H7 H8]. constructor; simpl; auto.
      intros _. apply H7. right. rewrite Hw. discriminate.
  - (* PermissionDenied *)
    destruct (permissionWaits s) as [|p rest] eqn:Hw; [assumption|].
    apply consistent_commit, consistent_error.
    destruct H as [H1 H2 H3 H4 H5 H6 H7 H8]. constructor; simpl; auto.
    + rewrite Hw in H6. inversion H6; auto.
    + intros _. apply H7. right. rewrite Hw. discriminate.
  - (* RecStart *)
    destruct (recognitions s !! r) as [rc|]; [|assumption].
    destruct (running rc); [frame H|assumption].
  - (* RecResult *)
    destruct (recognitions s !! r) as [rc|]; [|assumption].
    destruct (_ && _); [frame H|assumption].
  - (* RecError *)
    destruct (recognitions s !! r) as [rc|]; [|assumption].
    destruct (_ && _); [|assumption].
    apply consistent_commit, consistent_error. frame H.
  - (* RecEnd *)
    destruct (recognitions s !! r) as [rc|] eqn:Hr; [|assumption].
    destruct (running rc); [|assumption].
    match goal with
    | |- consistent (if _ then commit _ (onend _ _ ?x) else _) =>
        assert (H' : consistent x)
    end.
    { destruct H as [H1 H2 H3 H4 H5 H6 H7 H8]. constructor; simpl; auto.
      - apply Forall_alter; auto.
      - intros [Hn|Hn]; apply H7; eauto using alter_nil_inv. }
    destruct (handlers rc); [|assumption].
    apply consistent_commit, consistent_onend, H'.
  - (* SendText *)
    destruct (is_empty _); [assumption|].
    apply consistent_commit, consistent_callBackend, consistent_pushMessage, H.
  - (* FetchSettled *)
    destruct (controllers s !! c) as [k|] eqn:Hc; [|assumption].
    destruct (pending k) eqn:Hk; [|assumption].
    apply consistent_commit, consistent_callBackend_resume.
    destruct H as [H1 H2 H3 H4 H5 H6 H7 H8]. constructor; simpl; auto.
    intros c' k' Hc' Hk'.
    destruct (decide (c = c')) as [->|Hne].
    + rewrite list_lookup_alter_eq, Hc in Hc'. simpl in Hc'.
      injection Hc' as <-. discriminate Hk'.
    + rewrite list_lookup_alter_ne in Hc' by assumption. eauto.
    + intros p Hp. rewrite length_alter. auto.
  - (* PlaceholderTimeout *)
    destruct (placeholderTimers s); [assumption|].
    apply consistent_commit, consistent_speak_resume. frame H.
  - (* UtteranceStart *)
    destruct (utterances s); [assumption|].
    apply consistent_stopListeningHard. frame H.
  - (* UtteranceEnd *)
    destruct (utterances s); [assumption|].
    apply consistent_commit, consistent_speak_resume. frame H.
  - (* Retry *)
    apply consistent_commit.
    change (consistent (speak_resume (set_error_state None s))).
    apply consistent_speak_resume. frame H.
Qed.

Lemma consistent_run es : forall s, consistent s -> consistent (run s es).
Proof.
  induction es as [|e es IH]; intros s H; [assumption|].
  apply IH, consistent_step, H.
Qed.

Lemma reachable_consistent s : reachable s -> consistent s.
Proof. intros (c & es & ->). apply consistent_run, consistent_mount. Qed.

(** *** Trimming *)

Lemma trimStart_blank t : blank t -> trimStart t = [].
Proof.
  unfold blank. induction t as [|c t IH]; simpl; [reflexivity|].
  destruct (is_whitespace c); simpl; [exact IH|discriminate].
Qed.

Lemma trim_blank t : blank t -> trim t = [].
Proof. intros H. unfold trim. rewrite trimStart_blank by exact H. reflexivity. Qed.

(** *** What the renders and effects leave alone *)

Lemma set_phase_id s : set_phase (phase s) s = s.
Proof. destruct s; reflexivity. Qed.

Lemma set_error_state_id s : set_error_state (error_state s) s = s.
Proof. destruct s; reflexivity. Qed.

Lemma commit_same s : commit s s = s.
Proof. unfold commit. rewrite bool_decide_eq_true_2; reflexivity. Qed.

Lemma stopListeningHard_frame s :
  let s' := stopListeningHard s in
  phase s' = phase s /\ messages s' = messages s
  /\ error_state s' = error_state s /\ micEnabledRef s' = micEnabledRef s
  /\ micEnabled s' = micEnabled s /\ controllers s' = controllers s
  /\ thinkingAbortRef s' = thinkingAbortRef s
  /\ rearmTimers s' = rearmTimers s /\ permissionWaits s' = permissionWaits s
  /\ placeholderTimers s' = placeholderTimers s
  /\ hasSpeechSynthesis s' = hasSpeechSynthesis s
  /\ supportsSpeechRecognition s' = supportsSpeechRecognition s
  /\ speakingRef s' = speakingRef s /\ started s' = started s
  /\ lastTranscriptRef s' = lastTranscriptRef s.
Proof.
  unfold stopListeningHard. simpl.
  destruct (recognitionRef s); simpl; repeat split; reflexivity.
Qed.

Lemma autoStartEffect_frame p s :
  let s' := autoStartEffect p s in
  phase s' = phase s /\ messages s' = messages s
  /\ error_state s' = error_state s /\ micEnabledRef s' = micEnabledRef s
  /\ micEnabled s' = micEnabled s /\ controllers s' = controllers s
  /\ thinkingAbortRef s' = thinkingAbortRef s
  /\ rearmTimers s' = rearmTimers s /\ permissionWaits s' = permissionWaits s
  /\ placeholderTimers s' = placeholderTimers s
  /\ hasSpeechSynthesis s' = hasSpeechSynthesis s
  /\ supportsSpeechRecognition s' = supportsSpeechRecognition s
  /\ speakingRef s' = speakingRef s /\ started s' = started s
  /\ lastTranscriptRef s' = lastTranscriptRef s.
Proof.
  unfold autoStartEffect. cbv zeta.
  repeat (destruct (negb _);
          [first [exact (stopListeningHard_frame (set_settleTimer None s))
                 | simpl; repeat split; reflexivity]|]).
  simpl; repeat split; reflexivity.
Qed.

Lemma commit_frame old s :
  let s' := commit old s in
  phase s' = phase s /\ messages s' = messages s
  /\ error_state s' = error_state s /\ micEnabledRef s' = micEnabledRef s
  /\ micEnabled s' = micEnabled s /\ controllers s' = controllers s
  /\ thinkingAbortRef s' = thinkingAbortRef s
  /\ rearmTimers s' = rearmTimers s /\ permissionWaits s' = permissionWaits s
  /\ placeholderTimers s' = placeholderTimers s
  /\ hasSpeechSynthesis s' = hasSpeechSynthesis s
  /\ supportsSpeechRecognition s' = supportsSpeechRecognition s
  /\ speakingRef s' = speakingRef s /\ started s' = started s
  /\ lastTranscriptRef s' = lastTranscriptRef s.
Proof.
  unfold commit. case_bool_decide.
  - repeat split; reflexivity.
  - apply autoStartEffect_frame.
Qed.

(** *** The claims *)

Lemma reply_of_failed o : failed o -> exists msg, reply_of o = inr msg.
Proof.
  destruct o as [[m|]| |r]; simpl; eauto.
  intros Hb. rewrite (trim_blank _ Hb). simpl. eauto.
Qed.

(** C2: when the request of a controller ends in a failure (it was
    aborted, the transport failed, the status was not 2xx, or the reply
    is blank), the phase becomes [error], the error carries the title
    "Connection / response error", and the message list is the one from
    before. *)
Theorem reply_failure_is_error (s : State) (c : nat) (k : AbortController)
    (body : text) (o : FetchOutcome) (rd : Readings) :
  controllers s !! c = Some k ->
  pending k = Some body ->
  aborted k = true \/ failed o ->
  let s' := step s (FetchSettled c o rd) in
  phase s' = error /\
  (exists e, error_state s' = Some e /\
             title e = text_of_string "Connection / response error") /\
  messages s' = messages s.
Proof.
  intros Hc Hp Hf. cbv zeta. simpl. rewrite Hc, Hp.
  match goal with |- context [commit s ?x] =>
    destruct (commit_frame s x) as (-> & -> & -> & _) end.
  unfold callBackend_resume.
  assert (Hr : exists msg,
             reply_of (if aborted k then Threw AbortError else o) = inr msg).
  { destruct Hf as [-> | Hf]; [simpl; eauto|].
    destruct (aborted k); [simpl; eauto|]. apply reply_of_failed, Hf. }
  destruct Hr as [msg ->]. simpl. eauto.
Qed.

Lemma retry_phase s : phase (step s Retry) = next_phase s.
Proof.
  simpl.
  match goal with |- context [commit s ?x] =>
    destruct (commit_frame s x) as (-> & _) end.
  reflexivity.
Qed.

Lemma retry_twice s : step (step s Retry) Retry = step s Retry.
Proof.
  set (s1 := step s Retry).
  assert (Hph : phase s1 = next_phase s1 /\ error_state s1 = None).
  { subst s1. unfold next_phase. simpl.
    match goal with |- context [commit s ?x] =>
      destruct (commit_frame s x) as (-> & _ & -> & -> & _) end.
    simpl. auto. }
  destruct Hph as [Hph Herr].
  change (step s1 Retry)
    with (commit s1 (set_phase (next_phase s1) (set_error_state None s1))).
  rewrite <- Herr, set_error_state_id, <- Hph, set_phase_id.
  apply commit_same.
Qed.

(** C8: in a session, retry leaves the controller in the phase the
    mic-enabled flag selects; when the controller already is in
    [listening] or [idle] and holds no error, retry changes nothing at
    all (no phase change, no error change, no message, no timer).  In any
    state, a second retry right after a first changes nothing. *)
Theorem retry_is_idempotent :
  (forall s, reachable s ->
     phase (step s Retry) = (if micEnabled s then listening else idle) /\
     ((phase s = listening \/ phase s = idle) ->
      error_state s = None -> step s Retry = s)) /\
  (forall s, step (step s Retry) Retry = step s Retry).
Proof.
  split; [|exact retry_twice].
  intros s Hs. apply reachable_consistent in Hs.
  destruct Hs as [H1 H2 H3 _ _ _ _].
  split.
  - rewrite retry_phase. unfold next_phase. rewrite H1. reflexivity.
  - intros Hph Herr.
    assert (Hn : next_phase s = phase s).
    { unfold next_phase. destruct Hph as [Hph|Hph]; rewrite Hph.
      - rewrite (H2 Hph). reflexivity.
      - rewrite (H3 Hph). reflexivity. }
    change (step s Retry)
      with (commit s (set_phase (next_phase s) (set_error_state None s))).
    rewrite <- Herr, set_error_state_id, Hn, set_phase_id.
    apply commit_same.
Qed.

(** C10: [sendText] of a blank text returns the state it was given: no
    message, no request, the same phase and the same error. *)
Theorem sendText_blank_noop (s : State) (t : text) (rd : Readings) :
  blank t -> step s (SendText t rd) = s.
Proof. intros Hb. simpl. rewrite (trim_blank t Hb). reflexivity. Qed.

Lemma filter_none {A} (f : A -> bool) (l : list A) :
  (forall x, In x l -> f x = false) -> List.filter f l = [].
Proof.
  induction l as [|a l IH]; intros H; simpl; [reflexivity|].
  rewrite (H a) by (left; reflexivity).
  apply IH. intros x Hx. apply H. right. exact Hx.
Qed.

Lemma filter_live_unique (l : list AbortController) :
  (forall i j ki kj, l !! i = Some ki -> l !! j = Some kj ->
                     live ki = true -> live kj = true -> i = j) ->
  (length (List.filter live l) <= 1)%nat.
Proof.
  induction l as [|k l IH]; intros Hu; simpl; [lia|].
  destruct (live k) eqn:Hk.
  - assert (Hnone : List.filter live l = []).
    { apply filter_none. intros x Hx.
      destruct (live x) eqn:Hlx; [|reflexivity].
      apply list_elem_of_In, list_elem_of_lookup in Hx as [j Hj].
      specialize (Hu 0%nat (S j) k x eq_refl Hj Hk Hlx). discriminate. }
    rewrite Hnone. simpl. lia.
  - apply IH. intros i j ki kj Hi Hj Hki Hkj.
    specialize (Hu (S i) (S j) ki kj Hi Hj Hki Hkj). lia.
Qed.

(** C4: in a session, [callBackend] aborts the controller the ref
    holds, stores a fresh controller in the ref and starts the request
    on its signal; and in every state of a session at most one request
    is in flight without having been cancelled. *)
Theorem one_request_pending (s : State) :
  reachable s ->
  (forall t,
     let s' := callBackend t s in
     let n := length (controllers s) in
     thinkingAbortRef s' = Some n /\
     controllers s' !! n = Some {| aborted := false; pending := Some t |} /\
     (forall p k, thinkingAbortRef s = Some p ->
                  controllers s !! p = Some k ->
                  controllers s' !! p =
                    Some {| aborted := true; pending := pending k |})) /\
  (length (List.filter live (controllers s)) <= 1)%nat.
Proof.
  intros Hs. apply reachable_consistent in Hs. split.
  - intros t. cbv zeta. unfold callBackend. cbv zeta.
    set (s0 := set_phase thinking (stopListeningHard s)).
    assert (Hc : controllers s0 = controllers s)
      by (subst s0; simpl; apply stopListeningHard_frame).
    assert (Hr : thinkingAbortRef s0 = thinkingAbortRef s)
      by (subst s0; simpl; apply stopListeningHard_frame).
    clearbody s0. unfold abort. simpl. rewrite Hr, Hc.
    pose proof (current_allocated s Hs) as Hlt.
    split; [reflexivity|]. split.
    + rewrite list_lookup_alter_eq.
      destruct (thinkingAbortRef s) as [p|]; simpl.
      * specialize (Hlt p eq_refl).
        rewrite list_lookup_alter_ne, list_lookup_middle by lia.
        reflexivity.
      * rewrite list_lookup_middle by reflexivity. reflexivity.
    + intros p k Hp Hk. rewrite Hp. simpl.
      specialize (Hlt p Hp).
      rewrite list_lookup_alter_ne by lia.
      rewrite list_lookup_alter_eq, lookup_app_l, Hk by assumption.
      reflexivity.
  - apply filter_live_unique. intros i j ki kj Hi Hj Hki Hkj.
    pose proof (live_is_current s Hs i ki Hi Hki) as E1.
    pose proof (live_is_current s Hs j kj Hj Hkj) as E2.
    congruence.
Qed.

(** C6: without speech synthesis, a reply that is not blank appends the
    assistant message with the trimmed reply, moves the phase to
    [speaking] and arms the 900 ms placeholder timer; when that timer
    fires the phase is [listening] if the mic is enabled and [idle]
    otherwise. *)
Theorem reply_without_synthesis (s : State) (c : nat) (k : AbortController)
    (body reply : text) (rd : Readings) :
  reachable s ->
  controllers s !! c = Some k ->
  pending k = Some body ->
  aborted k = false ->
  hasSpeechSynthesis s = false ->
  trim reply <> [] ->
  let s1 := step s (FetchSettled c (Json (Some reply)) rd) in
  messages s1 =
    messages s ++ [ {| id := message_id rd; role := assistant;
                       content := trim reply; ts := now_ts rd |} ] /\
  phase s1 = speaking /\
  placeholderTimers s1 = S (placeholderTimers s) /\
  phase (step s1 PlaceholderTimeout) =
    (if micEnabled s then listening else idle).
Proof.
  intros Hs Hc Hp Ha Hsyn Hne. apply reachable_consistent in Hs.
  pose proof (ref_follows_prop s Hs) as Hmic.
  cbv zeta.
  set (s1 := step s (FetchSettled c (Json (Some reply)) rd)).
  assert (H1 : messages s1 =
               messages s ++ [ {| id := message_id rd; role := assistant;
                                  content := trim reply; ts := now_ts rd |} ]
               /\ phase s1 = speaking
               /\ placeholderTimers s1 = S (placeholderTimers s)
               /\ micEnabledRef s1 = micEnabledRef s).
  { subst s1. simpl. rewrite Hc, Hp.
    match goal with |- context [commit s ?x] =>
      destruct (commit_frame s x)
        as (-> & -> & _ & -> & _ & _ & _ & _ & _ & -> & _) end.
    unfold callBackend_resume. rewrite Ha. simpl.
    destruct (trim reply) as [|u v] eqn:Ht; [congruence|]. simpl.
    unfold speak. cbv zeta.
    match goal with |- context [stopListeningHard ?x] =>
      destruct (stopListeningHard_frame x)
        as (_ & Hm & _ & Hr & _ & _ & _ & _ & _ & Hpt & Hh & _) end.
    simpl in *. rewrite Hh, Hsyn. simpl. rewrite Hm, Hr, Hpt. auto. }
  destruct H1 as (Hm & Hph & Hpt & Hr).
  repeat split; try assumption.
  simpl. rewrite Hpt.
  match goal with |- context [commit s1 ?x] =>
    destruct (commit_frame s1 x) as (-> & _) end.
  simpl. unfold next_phase. simpl. rewrite Hr, Hmic. reflexivity.
Qed.

(** *** The message list *)

Lemma messages_stopListeningHard s :
  messages (stopListeningHard s) = messages s.
Proof. apply stopListeningHard_frame. Qed.

Lemma messages_speak t s : messages (speak t s) = messages s.
Proof.
  unfold speak. cbv zeta. destruct (negb _); simpl;
    rewrite messages_stopListeningHard; reflexivity.
Qed.

Lemma messages_callBackend t s : messages (callBackend t s) = messages s.
Proof.
  unfold callBackend, abort. simpl.
  destruct (thinkingAbortRef _); simpl;
    rewrite messages_stopListeningHard; reflexivity.
Qed.

Lemma messages_startListening p s :
  messages (startListening p s) = messages s.
Proof.
  unfold startListening.
  destruct (negb _); [reflexivity|].
  destruct (negb _); [reflexivity|].
  destruct (speakingRef s); reflexivity.
Qed.

Lemma messages_autoStartEffect p s :
  messages (autoStartEffect p s) = messages s.
Proof. apply autoStartEffect_frame. Qed.

Lemma messages_commit old s : messages (commit old s) = messages s.
Proof. apply commit_frame. Qed.

Lemma messages_micEffect s : messages (micEffect s) = messages s.
Proof.
  unfold micEffect. cbv zeta. destruct (negb _); simpl; [|reflexivity].
  rewrite messages_stopListeningHard. reflexivity.
Qed.

Lemma messages_bootEffect s : messages (bootEffect s) = messages s.
Proof. unfold bootEffect. simpl. destruct (negb _); reflexivity. Qed.

Lemma messages_started_effects s : messages (started_effects s) = messages s.
Proof.
  unfold started_effects. cbv zeta.
  case_bool_decide; rewrite ?messages_autoStartEffect, messages_bootEffect,
    messages_micEffect; reflexivity.
Qed.

(** One event appends the message of the utterance or reply it
    completes, stamped with the reading it brings, and nothing else. *)
Lemma step_messages s e :
  exists l,
    messages (step s e) = messages s ++ l /\
    length l = (if completes s e then 1 else 0)%nat /\
    map ts l = (if completes s e then clock e else []).
Proof.
  assert (Hnone : forall s', messages s' = messages s ->
            exists l, messages s' = messages s ++ l /\
                      length l = 0%nat /\ map ts l = []).
  { intros s' ->. exists []. rewrite app_nil_r. auto. }
  destruct e; simpl.
  - apply Hnone. case_bool_decide; [reflexivity|].
    rewrite messages_started_effects. reflexivity.
  - apply Hnone. case_bool_decide; [reflexivity|].
    rewrite messages_commit, messages_micEffect. reflexivity.
  - apply Hnone. destruct (bootTimer s); [|reflexivity].
    rewrite messages_commit. reflexivity.
  - apply Hnone. destruct (settleTimer s); [|reflexivity].
    rewrite messages_commit, messages_startListening. reflexivity.
  - apply Hnone. destruct (rearmTimers s); [reflexivity|].
    rewrite messages_commit, messages_startListening. reflexivity.
  - apply Hnone. destruct (permissionWaits s); reflexivity.
  - apply Hnone. destruct (permissionWaits s); [reflexivity|].
    rewrite messages_commit. reflexivity.
  - apply Hnone. destruct (recognitions s !! r) as [rc|]; [|reflexivity].
    destruct (running rc); reflexivity.
  - apply Hnone. destruct (recognitions s !! r) as [rc|]; [|reflexivity].
    destruct (_ && _); reflexivity.
  - apply Hnone. destruct (recognitions s !! r) as [rc|]; [|reflexivity].
    destruct (_ && _); [|reflexivity]. rewrite messages_commit. reflexivity.
  - (* RecEnd *)
    destruct (recognitions s !! r) as [rc|]; [|apply Hnone; reflexivity].
    destruct (running rc); [|apply Hnone; reflexivity].
    destruct (handlers rc); [|apply Hnone; reflexivity].
    rewrite messages_commit. unfold onend. cbv zeta.
    cbn [lastTranscriptRef set_micActive set_recognitions].
    destruct (is_empty (trim (lastTranscriptRef s))); cbn [andb negb].
    + apply Hnone. destruct (_ && _); reflexivity.
    + rewrite messages_callBackend. simpl. eauto.
  - (* SendText *)
    destruct (is_empty (trim t)); simpl; [apply Hnone; reflexivity|].
    rewrite messages_commit, messages_callBackend. simpl. eauto.
  - (* FetchSettled *)
    destruct (controllers s !! c) as [k|]; [|apply Hnone; reflexivity].
    unfold live, in_flight.
    destruct (pending k); [|apply Hnone; reflexivity].
    rewrite messages_commit. unfold callBackend_resume.
    destruct (aborted k); simpl; [apply Hnone; reflexivity|].
    destruct (reply_of o); simpl; [|apply Hnone; reflexivity].
    rewrite messages_speak. simpl. eauto.
  - apply Hnone. destruct (placeholderTimers s); [reflexivity|].
    rewrite messages_commit. reflexivity.
  - apply Hnone. destruct (utterances s); [reflexivity|].
    rewrite messages_stopListeningHard. reflexivity.
  - apply Hnone. destruct (utterances s); [reflexivity|].
    rewrite messages_commit. reflexivity.
  - apply Hnone. rewrite messages_commit. reflexivity.
Qed.

Lemma run_messages es : forall s,
  exists l, messages (run s es) = messages s ++ l.
Proof.
  induction es as [|e es IH]; intros s.
  - exists []. rewrite app_nil_r. reflexivity.
  - destruct (step_messages s e) as (l1 & H1 & _).
    destruct (IH (step s e)) as (l2 & H2).
    exists (l1 ++ l2). change (run s (e :: es)) with (run (step s e) es).
    rewrite H2, H1, app_assoc. reflexivity.
Qed.

Lemma StronglySorted_drop_middle (a c r : list Z) :
  StronglySorted Z.le (a ++ c ++ r) -> StronglySorted Z.le (a ++ r).
Proof.
  rewrite !StronglySorted_app. intros (H1 & H2 & H3 & H4 & H5).
  repeat split; try assumption.
  intros x1 Hx1 x2 Hx2. apply H1; [assumption|].
  apply elem_of_app. right. assumption.
Qed.

Lemma run_sorted es : forall s,
  StronglySorted Z.le (map ts (messages s) ++ clocks es) ->
  StronglySorted Z.le (map ts (messages (run s es))).
Proof.
  induction es as [|e es IH]; intros s H.
  - simpl in *. rewrite app_nil_r in H. exact H.
  - change (run s (e :: es)) with (run (step s e) es). apply IH.
    destruct (step_messages s e) as (l & -> & _ & Hts).
    rewrite map_app, Hts, <- app_assoc.
    change (clocks (e :: es)) with (clock e ++ clocks es) in H.
    destruct (completes s e); [exact H|].
    simpl. eapply StronglySorted_drop_middle, H.
Qed.

(** C9, as the code has it: the message list only grows at its end.  In
    every state of a session, an event that completes an utterance or a
    reply appends exactly one message and no other event appends any;
    whatever events follow, the messages so far stay as a prefix,
    unchanged and in order.  The timestamps are [Date.now()] readings:
    provided the readings of the events never decrease, the timestamps of
    the list are non-decreasing. *)
Theorem message_log_append_only (c : Config) (es : list Event) :
  let s := run (mount c) es in
  (forall e, exists l,
     messages (step s e) = messages s ++ l /\
     length l = (if completes s e then 1 else 0)%nat) /\
  (forall es', exists l, messages (run s es') = messages s ++ l) /\
  (StronglySorted Z.le (clocks es) ->
   StronglySorted Z.le (map ts (messages s))).
Proof.
  cbv zeta. split; [|split].
  - intros e. destruct (step_messages (run (mount c) es) e) as (l & H1 & H2 & _).
    eauto.
  - intros es'. apply run_messages.
  - intros Hclk. apply run_sorted.
    assert (Hm : messages (mount c) = []).
    { unfold mount. rewrite messages_started_effects. reflexivity. }
    rewrite Hm. exact Hclk.
Qed.

(** *** The theorems at sample inputs *)

Lemma sample_thinking_reachable : reachable sample_thinking.
Proof. eexists _, _. reflexivity. Qed.

Lemma sample_listening_reachable : reachable sample_listening.
Proof. eexists _, _. reflexivity. Qed.

(** [reply_failure_is_error] at an HTTP 500 with an empty body. *)
Lemma reply_failure_is_error_witness :
  let s' := step sample_thinking
              (FetchSettled 0 (NotOk 500 []) (sample_readings 9)) in
  controllers sample_thinking !! 0%nat =
    Some {| aborted := false; pending := Some lights_request |} /\
  failed (NotOk 500 []) /\
  phase s' = error /\ messages s' = messages sample_thinking.
Proof.
  cbv zeta. split; [reflexivity|]. split; [exact I|].
  destruct (reply_failure_is_error sample_thinking 0
              {| aborted := false; pending := Some lights_request |}
              lights_request (NotOk 500 []) (sample_readings 9)
              eq_refl eq_refl (or_intror I)) as (H1 & _ & H3).
  split; assumption.
Defined.

Lemma sample_superseded_reachable : reachable sample_superseded.
Proof. eexists _, _. reflexivity. Qed.

(** [one_request_pending] after two submissions in a row. *)
Lemma one_request_pending_witness :
  reachable sample_superseded /\
  (length (List.filter live (controllers sample_superseded)) <= 1)%nat.
Proof.
  split; [exact sample_superseded_reachable|].
  exact (proj2 (one_request_pending _ sample_superseded_reachable)).
Defined.

(** [reply_without_synthesis] at the reply "Lights are on." in text mode. *)
Lemma reply_without_synthesis_witness :
  let s1 := step sample_thinking
              (FetchSettled 0 (Json (Some lights_reply)) (sample_readings 9)) in
  hasSpeechSynthesis sample_thinking = false /\
  trim lights_reply <> [] /\
  phase s1 = speaking /\
  phase (step s1 PlaceholderTimeout) = idle.
Proof.
  cbv zeta. split; [reflexivity|]. split; [discriminate|].
  destruct (reply_without_synthesis sample_thinking 0
              {| aborted := false; pending := Some lights_request |}
              lights_request lights_reply (sample_readings 9)
              sample_thinking_reachable eq_refl eq_refl eq_refl eq_refl
              ltac:(discriminate)) as (_ & H2 & _ & H4).
  split; assumption.
Defined.

(** [retry_is_idempotent] while listening with no error. *)
Lemma retry_is_idempotent_witness :
  reachable sample_listening /\
  phase sample_listening = listening /\
  error_state sample_listening = None /\
  step sample_listening Retry = sample_listening.
Proof.
  split; [exact sample_listening_reachable|].
  split; [reflexivity|]. split; [reflexivity|].
  exact (proj2 (proj1 retry_is_idempotent sample_listening
                  sample_listening_reachable)
           (or_introl eq_refl) eq_refl).
Defined.

(** [message_log_append_only] at a request at time 5 answered at time 9. *)
Lemma message_log_append_only_witness :
  let es := [BootTimeout; SendText lights_request (sample_readings 5);
             FetchSettled 0 (Json (Some lights_reply)) (sample_readings 9)] in
  StronglySorted Z.le (clocks es) /\
  StronglySorted Z.le
    (map ts (messages (run (mount (sample_config false false)) es))).
Proof.
  cbv zeta.
  assert (Hc : StronglySorted Z.le
                 (clocks [BootTimeout;
                          SendText lights_request (sample_readings 5);
                          FetchSettled 0 (Json (Some lights_reply))
                            (sample_readings 9)])).
  { simpl. repeat constructor. lia. }
  split; [exact Hc|].
  exact (proj2 (proj2 (message_log_append_only (sample_config false false) _))
           Hc).
Defined.

(** C9 as worded fails when the clock is set back between two messages:
    [pushMessage] stores the reading as it is, so a text sent at 9 and
    one sent at 5 leave the timestamps 9, 5 in the list. *)
Lemma timestamps_can_decrease :
  let s := run (mount (sample_config false false))
             [BootTimeout; SendText lights_request (sample_readings 9);
              SendText never_mind (sample_readings 5)] in
  map ts (messages s) = [9; 5]%Z /\
  ~ StronglySorted Z.le (map ts (messages s)).
Proof.
  cbv zeta.
  assert (E : map ts (messages (run (mount (sample_config false false))
                [BootTimeout; SendText lights_request (sample_readings 9);
                 SendText never_mind (sample_readings 5)])) = [9; 5]%Z)
    by (vm_compute; reflexivity).
  split; [exact E|]. rewrite E. intros H.
  apply StronglySorted_inv in H as [_ H].
  apply Forall_inv in H. lia.
Qed.

(** [sendText_blank_noop] at a space, a tab and a no-break space. *)
Lemma sendText_blank_noop_witness :
  blank [32; 9; 160]%N /\
  step sample_listening (SendText [32; 9; 160]%N (sample_readings 7))
    = sample_listening.
Proof.
  split; [reflexivity|].
  exact (sendText_blank_noop sample_listening [32; 9; 160]%N
           (sample_readings 7) eq_refl).
Defined.

End VoiceFacts.

(* ===================================================================== *)
(** ** Further properties of the access gate *)
(* ===================================================================== *)

Module GateExtras.
Import PinGate.

Lemma step_digits_bound g e :
  (length (digits g) <= 6)%nat -> (length (digits (step g e)) <= 6)%nat.
Proof.
  intros Hb.
  destruct e; unfold step, addDigit, backspace, clearAll, reset,
    tryValidateIfComplete, deny.
  - destruct (gate_open g); [|assumption].
    destruct (animating g); [assumption|].
    destruct (Nat.leb_spec 6 (length (digits g))); [assumption|].
    assert (Hn : (length (digits g ++ [d]) <= 6)%nat)
      by (rewrite length_app; simpl; lia).
    cbv zeta. destruct (negb _); [exact Hn|].
    destruct (String.eqb _ _); exact Hn.
  - destruct (gate_open g); [|assumption].
    destruct (animating g); [assumption|].
    cbn [digits set_status set_digits].
    destruct (digits g) as [|a l _] using rev_ind; [simpl; lia|].
    rewrite removelast_last. rewrite length_app in Hb. lia.
  - destruct (gate_open g); [|assumption].
    destruct (animating g); [assumption|]. simpl. lia.
  - destruct (_ && _); [simpl; lia|assumption].
  - destruct (denyTimers g); [assumption|simpl; lia].
  - destruct (_ && _); assumption.
Qed.

Lemma run_digits_bound es : forall g,
  (length (digits g) <= 6)%nat -> (length (digits (run g es)) <= 6)%nat.
Proof.
  induction es as [|e es IH]; intros g Hb; [exact Hb|].
  apply IH, step_digits_bound, Hb.
Qed.

(** X1: whatever is tapped and whichever timers fire, the buffer never
    holds more than six digits. *)
Theorem digits_never_exceed_six (es : list Event) :
  (length (digits (run init es)) <= 6)%nat.
Proof. apply run_digits_bound. simpl. lia. Qed.

Lemma slots_of_count (n : nat) :
  (n <= 6)%nat ->
  map (fun i => if (i <? n)%nat then "●" else "○") (seq 0 6) =
    repeat "●" n ++ repeat "○" (6 - n).
Proof.
  intros Hn. do 7 (destruct n as [|n]; [reflexivity|]). lia.
Qed.

(** X2: the mask always shows six slots, as many filled ones as digits
    were entered, and the filled ones come first. *)
Theorem maskedSlots_shape (es : list Event) :
  let g := run init es in
  maskedSlots g =
    repeat "●" (length (digits g)) ++ repeat "○" (6 - length (digits g)).
Proof.
  cbv zeta. unfold maskedSlots. apply slots_of_count.
  apply run_digits_bound. simpl. lia.
Qed.

(** X3: a wrong code costs nothing: for six digits that do not spell the
    required PIN, the gate is back in its initial state once the
    cool-down timer has fired, so attempts are unlimited. *)
Theorem denial_recovers (ds : list string) :
  length ds = 6%nat -> join ds <> REQUIRED_PIN ->
  step (enter ds init) DenyTimeout = init.
Proof.
  intros Hlen Hne. rewrite (GateFacts.enter_six ds Hlen).
  unfold tryValidateIfComplete. rewrite Hlen. simpl.
  destruct (String.eqb_spec (join ds) REQUIRED_PIN); [contradiction|].
  reflexivity.
Qed.

Lemma denial_recovers_witness :
  let ds := ["1"; "2"; "3"; "4"; "5"; "6"] in
  length ds = 6%nat /\ join ds <> REQUIRED_PIN /\
  step (enter ds init) DenyTimeout = init.
Proof.
  cbv zeta. split; [reflexivity|]. split; [discriminate|].
  apply (denial_recovers ["1"; "2"; "3"; "4"; "5"; "6"] eq_refl).
  discriminate.
Defined.

Lemma step_calls g e :
  authorizedCalls g = (if pinAuthorized g then 1 else 0)%nat ->
  authorizedCalls (step g e) = (if pinAuthorized (step g e) then 1 else 0)%nat.
Proof.
  intros H.
  destruct e; unfold step, gate_open, addDigit, backspace, clearAll, reset,
    tryValidateIfComplete, deny.
  - destruct (negb (pinAuthorized g)); [|exact H].
    destruct (animating g); [exact H|].
    destruct (_ <=? _)%nat; [exact H|]. cbv zeta.
    destruct (negb _); [exact H|].
    destruct (String.eqb _ _); exact H.
  - destruct (negb (pinAuthorized g)); [|exact H].
    destruct (animating g); exact H.
  - destruct (negb (pinAuthorized g)); [|exact H].
    destruct (animating g); exact H.
  - destruct (_ && _); exact H.
  - destruct (denyTimers g); exact H.
  - destruct (pinAuthorized g) eqn:Hp; simpl; [rewrite Hp; exact H|].
    destruct (animating g); simpl; [|rewrite Hp; exact H].
    rewrite H. reflexivity.
Qed.

(** X4: [onAuthorized] is called at most once in the life of the gate,
    whatever the events: the count of calls is 1 if the gate has
    authorized and 0 otherwise. *)
Theorem authorized_at_most_once (es : list Event) :
  let g := run init es in
  authorizedCalls g = (if pinAuthorized g then 1 else 0)%nat /\
  (authorizedCalls g <= 1)%nat.
Proof.
  cbv zeta.
  assert (H : forall g, authorizedCalls g = (if pinAuthorized g then 1 else 0)%nat ->
            authorizedCalls (run g es) =
              (if pinAuthorized (run g es) then 1 else 0)%nat).
  { induction es as [|e es IH]; intros g Hg; [exact Hg|].
    apply IH, step_calls, Hg. }
  specialize (H init eq_refl). split; [exact H|].
  rewrite H. destruct (pinAuthorized _); lia.
Qed.

Lemma step_opens_only_on_pin g e :
  animating g = false -> pinAuthorized g = false ->
  animating (step g e) = true \/ pinAuthorized (step g e) = true ->
  length (digits (step g e)) = 6%nat /\
  join (digits (step g e)) = REQUIRED_PIN.
Proof.
  intros Ha Hp.
  destruct e; unfold step, gate_open, addDigit, backspace, clearAll, reset,
    tryValidateIfComplete, deny; rewrite ?Hp, ?Ha; cbn [negb andb].
  - destruct (_ <=? _)%nat; [rewrite Ha, Hp; intros [?|?]; discriminate|].
    cbv zeta.
    destruct (Nat.eqb_spec (length (digits g ++ [d])) 6) as [Hlen|Hlen];
      cbn [negb]; [|simpl; rewrite Ha, Hp; intros [?|?]; discriminate].
    destruct (String.eqb_spec (join (digits g ++ [d])) REQUIRED_PIN);
      simpl; [auto|].
    rewrite Ha, Hp; intros [?|?]; discriminate.
  - simpl. rewrite Ha, Hp; intros [?|?]; discriminate.
  - simpl. rewrite Ha, Hp; intros [?|?]; discriminate.
  - simpl. rewrite Ha, Hp; intros [?|?]; discriminate.
  - destruct (denyTimers g); simpl; rewrite Ha, Hp; intros [?|?]; discriminate.
  - rewrite Ha, Hp; intros [?|?]; discriminate.
Qed.

Lemma run_opens_only_on_pin es : forall g,
  animating g = false -> pinAuthorized g = false ->
  animating (run g es) = true \/ pinAuthorized (run g es) = true ->
  Exists (fun g' => length (digits g') = 6%nat /\
                    join (digits g') = REQUIRED_PIN) (visited g es).
Proof.
  induction es as [|e es IH]; intros g Ha Hp Hopen.
  - simpl in Hopen. rewrite Ha, Hp in Hopen. destruct Hopen; discriminate.
  - change (run g (e :: es)) with (run (step g e) es) in Hopen.
    simpl. apply Exists_cons_tl.
    destruct (animating (step g e)) eqn:Ha'.
    + destruct es; simpl; apply Exists_cons_hd;
        apply (step_opens_only_on_pin g e Ha Hp); auto.
    + destruct (pinAuthorized (step g e)) eqn:Hp'.
      * destruct es; simpl; apply Exists_cons_hd;
          apply (step_opens_only_on_pin g e Ha Hp); auto.
      * apply IH; assumption.
Qed.

(** X5: the gate never authorizes unless, at some point on the way, the
    buffer held six digits that spell the required PIN. *)
Theorem no_authorization_without_pin (es : list Event) :
  pinAuthorized (run init es) = true ->
  Exists (fun g => length (digits g) = 6%nat /\
                   join (digits g) = REQUIRED_PIN) (visited init es).
Proof.
  intros H. apply run_opens_only_on_pin; auto.
Qed.

Lemma no_authorization_without_pin_witness :
  let es := map AddDigit pin_digits ++ [AnimationComplete] in
  pinAuthorized (run init es) = true /\
  Exists (fun g => length (digits g) = 6%nat /\
                   join (digits g) = REQUIRED_PIN) (visited init es).
Proof.
  cbv zeta. split; [reflexivity|].
  apply (no_authorization_without_pin
           (map AddDigit pin_digits ++ [AnimationComplete]) eq_refl).
Defined.

(** X6: DEL undoes a tap: while the gate is open and idle with fewer
    than five digits, a digit followed by a backspace leaves the gate as
    it was. *)
Theorem backspace_undoes_digit (g : Gate) (d : string) :
  pinAuthorized g = false -> animating g = false -> status g = idle ->
  (length (digits g) < 5)%nat ->
  step (step g (AddDigit d)) Backspace = g.
Proof.
  intros Hp Ha Hst Hlen.
  assert (H6 : (6 <=? length (digits g))%nat = false)
    by (apply Nat.leb_gt; lia).
  assert (Hne : (length (digits g ++ [d]) =? 6)%nat = false)
    by (apply Nat.eqb_neq; rewrite length_app; simpl; lia).
  unfold step, gate_open, addDigit, tryValidateIfComplete.
  rewrite Hp, Ha. cbn [negb]. rewrite H6. cbv zeta. rewrite Hne.
  cbn [negb pinAuthorized set_digits]. rewrite Hp. cbn [negb].
  unfold backspace. cbn [animating set_digits digits]. rewrite Ha.
  rewrite removelast_last. destruct g; simpl in *. subst. reflexivity.
Qed.

Lemma backspace_undoes_digit_witness :
  let g := enter ["2"; "2"] init in
  (length (digits g) < 5)%nat /\ step (step g (AddDigit "7")) Backspace = g.
Proof.
  cbv zeta. split; [simpl; lia|].
  apply (backspace_undoes_digit (enter ["2"; "2"] init) "7");
    [reflexivity | reflexivity | reflexivity | simpl; lia].
Defined.

End GateExtras.

(* ===================================================================== *)
(** ** Further properties of the voice phase controller *)
(* ===================================================================== *)

Module VoiceExtras.
Import VoiceLoop VoiceFacts.

(** *** What each helper writes *)

Lemma stopListeningHard_shape s :
  exists r, stopListeningHard s = set_recognitions r (set_micActive false s).
Proof.
  unfold stopListeningHard. cbv zeta. cbn [recognitionRef set_micActive].
  destruct (recognitionRef s); eexists; reflexivity.
Qed.

Lemma autoStartEffect_shape p s :
  exists a r t,
    autoStartEffect p s =
      set_settleTimer t (set_recognitions r (set_micActive a s)).
Proof.
  unfold autoStartEffect. cbv zeta.
  destruct (stopListeningHard_shape (set_settleTimer None s)) as [r Hr].
  rewrite Hr.
  repeat (destruct (negb _);
          [first [ exists (micActive s), (recognitions s), None; reflexivity
                 | exists false, r, None; reflexivity ]|]).
  exists (micActive s), (recognitions s), (Some p). reflexivity.
Qed.

Lemma commit_shape old s :
  exists a r t,
    commit old s = set_settleTimer t (set_recognitions r (set_micActive a s)).
Proof.
  unfold commit. case_bool_decide; [|apply autoStartEffect_shape].
  exists (micActive s), (recognitions s), (settleTimer s).
  destruct s; reflexivity.
Qed.

Ltac peel :=
  repeat match goal with
    | |- context [commit ?o ?x] =>
        let E := fresh in
        destruct (commit_shape o x) as (? & ? & ? & E); rewrite E; clear E
    | |- context [autoStartEffect ?p ?x] =>
        let E := fresh in
        destruct (autoStartEffect_shape p x) as (? & ? & ? & E);
        rewrite E; clear E
    | |- context [stopListeningHard ?x] =>
        let E := fresh in
        destruct (stopListeningHard_shape x) as (? & E); rewrite E; clear E
    end.

Lemma startListening_shape p s :
  exists q e w,
    startListening p s =
      set_phase q (set_error_state e (set_permissionWaits w s)).
Proof.
  unfold startListening.
  destruct (negb _).
  - exists error, (Some not_supported_error), (permissionWaits s).
    destruct s; reflexivity.
  - destruct (negb _); [|destruct (speakingRef s)].
    + exists (phase s), (error_state s), (permissionWaits s).
      destruct s; reflexivity.
    + exists (phase s), (error_state s), (permissionWaits s).
      destruct s; reflexivity.
    + exists (phase s), (error_state s), (permissionWaits s ++ [p]).
      destruct s; reflexivity.
Qed.

Lemma micEffect_shape s :
  exists q a r,
    micEffect s =
      set_phase q (set_recognitions r
        (set_micActive a (set_micEnabledRef (micEnabled s) s))).
Proof.
  unfold micEffect. cbv zeta. cbn [micEnabled set_micEnabledRef].
  destruct (negb (micEnabled s)).
  - destruct (stopListeningHard_shape (set_micEnabledRef (micEnabled s) s))
      as [r ->]. eexists _, _, _. reflexivity.
  - exists (match phase s with idle => listening | p => p end),
           (micActive s), (recognitions s).
    destruct s; reflexivity.
Qed.

Lemma bootEffect_shape s :
  exists q e b,
    bootEffect s = set_phase q (set_error_state e (set_bootTimer b s)).
Proof.
  unfold bootEffect. cbv zeta. cbn [started set_bootTimer].
  destruct (negb (started s)).
  - exists locked, (error_state s), false. destruct s; reflexivity.
  - exists booting, None, true. reflexivity.
Qed.

Lemma started_effects_shape s :
  exists q e b a r t,
    started_effects s =
      set_phase q (set_error_state e (set_bootTimer b (set_settleTimer t
        (set_recognitions r (set_micActive a
           (set_micEnabledRef (micEnabled s) s)))))).
Proof.
  unfold started_effects. cbv zeta.
  destruct (micEffect_shape s) as (q1 & a1 & r1 & ->).
  destruct (bootEffect_shape
              (set_phase q1 (set_recognitions r1 (set_micActive a1
                 (set_micEnabledRef (micEnabled s) s)))))
    as (q2 & e2 & b2 & ->).
  match goal with |- context [autoStartEffect ?p ?x] =>
    destruct (autoStartEffect_shape p x) as (a3 & r3 & t3 & ->) end.
  case_bool_decide.
  - exists q2, e2, b2, a3, r3, t3. destruct s; reflexivity.
  - match goal with |- context [autoStartEffect ?p ?x] =>
      destruct (autoStartEffect_shape p x) as (a4 & r4 & t4 & ->) end.
    exists q2, e2, b2, a4, r4, t4. destruct s; reflexivity.
Qed.

Lemma speak_shape t s :
  exists a r n u,
    speak t s =
      set_utterances u (set_placeholderTimers n
        (set_phase speaking (set_recognitions r (set_micActive a s)))).
Proof.
  unfold speak. cbv zeta.
  destruct (stopListeningHard_shape s) as (r & ->).
  destruct (negb _).
  - exists false, r, (S (placeholderTimers s)), (utterances s). reflexivity.
  - exists false, r, (placeholderTimers s), (utterances s ++ [t]).
    reflexivity.
Qed.

Lemma callBackend_shape t s :
  exists r c,
    callBackend t s =
      set_controllers c (set_thinkingAbortRef (Some (length (controllers s)))
        (set_phase thinking (set_recognitions r (set_micActive false s)))).
Proof.
  exists (recognitions (stopListeningHard s)), (controllers (callBackend t s)).
  unfold callBackend, abort, stopListeningHard.
  destruct s as [? ? ? ? ? ? ? rr ? tr ? ? ? ? ? ? ? ? ? ? ?]. simpl.
  destruct rr, tr; reflexivity.
Qed.

(** *** The platform does not change *)

Lemma step_platform s e :
  supportsSpeechRecognition (step s e) = supportsSpeechRecognition s /\
  hasSpeechSynthesis (step s e) = hasSpeechSynthesis s.
Proof.
  destruct e; simpl.
  - case_bool_decide; [auto|].
    destruct (started_effects_shape (set_started b s))
      as (? & ? & ? & ? & ? & ? & ->). auto.
  - case_bool_decide; [auto|].
    destruct (micEffect_shape (set_micEnabled b s)) as (? & ? & ? & ->).
    peel. auto.
  - destruct (bootTimer s); [peel|]; auto.
  - destruct (settleTimer s) as [p|]; [|auto].
    destruct (startListening_shape p (set_settleTimer None s))
      as (? & ? & ? & ->). peel. auto.
  - destruct (rearmTimers s) as [|p rest]; [auto|].
    destruct (startListening_shape p (set_rearmTimers rest s))
      as (? & ? & ? & ->). peel. auto.
  - destruct (permissionWaits s); auto.
  - destruct (permissionWaits s); [|peel]; auto.
  - destruct (recognitions s !! r) as [rc|]; [|auto].
    destruct (running rc); auto.
  - destruct (recognitions s !! r) as [rc|]; [|auto].
    destruct (_ && _); auto.
  - destruct (recognitions s !! r) as [rc|]; [|auto].
    destruct (_ && _); [peel|]; auto.
  - destruct (recognitions s !! r) as [rc|]; [|auto].
    destruct (running rc); [|auto].
    destruct (handlers rc); [|auto].
    unfold onend. cbv zeta. destruct (is_empty _).
    + destruct (_ && _); peel; auto.
    + match goal with |- context [callBackend ?t ?x] =>
        destruct (callBackend_shape t x) as (? & ? & ->) end.
      peel. auto.
  - destruct (is_empty _); [auto|].
    match goal with |- context [callBackend ?t ?x] =>
      destruct (callBackend_shape t x) as (? & ? & ->) end.
    peel. auto.
  - destruct (controllers s !! c) as [k|]; [|auto].
    destruct (pending k); [|auto].
    unfold callBackend_resume. destruct (reply_of _).
    + match goal with |- context [speak ?t ?x] =>
        destruct (speak_shape t x) as (? & ? & ? & ? & ->) end.
      peel. auto.
    + peel. auto.
  - destruct (placeholderTimers s); [|peel]; auto.
  - destruct (utterances s); [|peel]; auto.
  - destruct (utterances s); [|peel]; auto.
  - peel. auto.
Qed.

Lemma run_platform es : forall s,
  supportsSpeechRecognition (run s es) = supportsSpeechRecognition s /\
  hasSpeechSynthesis (run s es) = hasSpeechSynthesis s.
Proof.
  induction es as [|e es IH]; intros s; [auto|].
  change (run s (e :: es)) with (run (step s e) es).
  destruct (IH (step s e)) as [-> ->]. apply step_platform.
Qed.

Lemma mount_platform c :
  supportsSpeechRecognition (mount c) = cfg_supportsSpeechRecognition c /\
  hasSpeechSynthesis (mount c) = cfg_hasSpeechSynthesis c.
Proof.
  unfold mount.
  destruct (started_effects_shape (initial c)) as (? & ? & ? & ? & ? & ? & ->).
  auto.
Qed.

(** X7: on a platform without speech recognition no session ever asks
    for the microphone or creates a recognition object; whenever the
    settle timer fires there, the controller reports the error
    "SpeechRecognition not supported" and appends nothing. *)
Theorem unsupported_platform (c : Config) (es : list Event) :
  cfg_supportsSpeechRecognition c = false ->
  let s := run (mount c) es in
  recognitions s = [] /\ permissionWaits s = [] /\
  (forall p, settleTimer s = Some p ->
     phase (step s SettleTimeout) = error /\
     error_state (step s SettleTimeout) = Some not_supported_error /\
     messages (step s SettleTimeout) = messages s /\
     permissionWaits (step s SettleTimeout) = []).
Proof.
  intros Hc. cbv zeta.
  set (s := run (mount c) es).
  assert (Hsup : supportsSpeechRecognition s = false).
  { subst s. rewrite (proj1 (run_platform es (mount c))).
    rewrite (proj1 (mount_platform c)). exact Hc. }
  assert (Hcons : consistent s).
  { apply reachable_consistent. exists c, es. reflexivity. }
  assert (Hnone : recognitions s = [] /\ permissionWaits s = []).
  { pose proof (captures_supported s Hcons) as H. rewrite Hsup in H.
    split.
    - destruct (recognitions s); [reflexivity|].
      exfalso. assert (true = false) by (symmetry; apply H; left; discriminate).
      discriminate.
    - destruct (permissionWaits s); [reflexivity|].
      exfalso. assert (true = false) by (symmetry; apply H; right; discriminate).
      discriminate. }
  destruct Hnone as [Hr Hw]. split; [exact Hr|]. split; [exact Hw|].
  intros p Hp. simpl. rewrite Hp. unfold startListening.
  cbn [supportsSpeechRecognition set_settleTimer]. rewrite Hsup.
  cbn [negb]. peel. simpl. auto.
Qed.

Lemma unsupported_platform_witness :
  cfg_supportsSpeechRecognition sample_unsupported_config = false /\
  settleTimer sample_unsupported = Some listening /\
  phase (step sample_unsupported SettleTimeout) = error.
Proof.
  split; [reflexivity|]. split; [vm_compute; reflexivity|].
  refine (proj1 (proj2 (proj2 (unsupported_platform
            sample_unsupported_config [BootTimeout] eq_refl)) listening _)).
  vm_compute. reflexivity.
Defined.

(** *** Trimming twice *)

Lemma trimStart_split t : exists w, t = w ++ trimStart t.
Proof.
  induction t as [|c t [w IH]]; [exists []; reflexivity|]. simpl.
  destruct (is_whitespace c).
  - exists (c :: w). simpl. rewrite <- IH. reflexivity.
  - exists []. reflexivity.
Qed.

Lemma trimStart_head t c r :
  trimStart t = c :: r -> is_whitespace c = false.
Proof.
  induction t as [|x t IH]; simpl; [discriminate|].
  destruct (is_whitespace x) eqn:Hx; [exact IH|].
  intros [= <- _]. exact Hx.
Qed.

Lemma trimStart_fixed c r :
  is_whitespace c = false -> trimStart (c :: r) = c :: r.
Proof. intros H. simpl. rewrite H. reflexivity. Qed.

Lemma trimStart_idem t : trimStart (trimStart t) = trimStart t.
Proof.
  destruct (trimStart t) as [|c r] eqn:E; [reflexivity|].
  apply trimStart_fixed, (trimStart_head t c r E).
Qed.

Lemma trim_idem t : trim (trim t) = trim t.
Proof.
  unfold trim at 2 3. set (u := trimStart t).
  assert (Hv : trimStart (trimEnd u) = trimEnd u).
  { destruct (trimEnd u) as [|x v'] eqn:Ev; [reflexivity|].
    apply trimStart_fixed.
    destruct (trimStart_split (rev u)) as [w Hw].
    assert (Hu : u = trimEnd u ++ rev w).
    { unfold trimEnd. rewrite <- rev_app_distr, <- Hw, rev_involutive.
      reflexivity. }
    rewrite Ev in Hu. simpl in Hu.
    apply (trimStart_head t x (v' ++ rev w)). exact Hu. }
  unfold trim. rewrite Hv. unfold trimEnd at 1.
  unfold trimEnd. rewrite rev_involutive, trimStart_idem. reflexivity.
Qed.

Lemma trim_trimmed t : is_empty (trim t) = false -> trimmed (trim t).
Proof.
  intros H. split; [|apply trim_idem].
  intros E. rewrite E in H. discriminate.
Qed.

(** *** Counting under an update *)

Lemma count_app {A} (f : A -> bool) l1 l2 :
  count f (l1 ++ l2) = (count f l1 + count f l2)%nat.
Proof. unfold count. rewrite List.filter_app, length_app. reflexivity. Qed.

Lemma count_alter_same {A} (f : A -> bool) (g : A -> A) i l :
  (forall x, f (g x) = f x) -> count f (alter g i l) = count f l.
Proof.
  intros Hg. unfold count. revert i.
  induction l as [|a l IH]; intros [|i]; simpl; try reflexivity.
  - rewrite Hg. destruct (f a); reflexivity.
  - specialize (IH i). change (list_alter g i l) with (alter g i l).
    destruct (f a); simpl; rewrite IH; reflexivity.
Qed.

Lemma count_alter_up {A} (f : A -> bool) (g : A -> A) i l x :
  l !! i = Some x -> f x = false -> f (g x) = true ->
  count f (alter g i l) = S (count f l).
Proof.
  unfold count. revert i.
  induction l as [|a l IH]; intros [|i] Hl Hx Hg; simpl in *; try discriminate.
  - injection Hl as ->. rewrite Hx, Hg. reflexivity.
  - specialize (IH i Hl Hx Hg). change (list_alter g i l) with (alter g i l).
    destruct (f a); simpl; rewrite IH; reflexivity.
Qed.

Lemma count_alter_down {A} (f : A -> bool) (g : A -> A) i l x :
  l !! i = Some x -> f x = true -> f (g x) = false ->
  S (count f (alter g i l)) = count f l.
Proof.
  unfold count. revert i.
  induction l as [|a l IH]; intros [|i] Hl Hx Hg; simpl in *; try discriminate.
  - injection Hl as ->. rewrite Hx, Hg. reflexivity.
  - specialize (IH i Hl Hx Hg). change (list_alter g i l) with (alter g i l).
    destruct (f a); simpl; rewrite <- IH; reflexivity.
Qed.

(** *** Messages and requests *)

(** What [callBackend] does to the requests: one more controller, one
    more request in flight, and the ref on the new controller. *)
Lemma callBackend_requests t s :
  messages (callBackend t s) = messages s /\
  phase (callBackend t s) = thinking /\
  thinkingAbortRef (callBackend t s) = Some (length (controllers s)) /\
  length (controllers (callBackend t s)) = S (length (controllers s)) /\
  count in_flight (controllers (callBackend t s)) =
    S (count in_flight (controllers s)).
Proof.
  unfold callBackend, abort. cbv zeta.
  destruct (stopListeningHard_shape s) as (r & ->).
  cbn [thinkingAbortRef controllers set_controllers set_phase
       set_recognitions set_micActive set_thinkingAbortRef].
  set (new := {| aborted := false; pending := None |}).
  destruct (thinkingAbortRef s) as [p|]; simpl.
  - assert (Hk : exists k,
              alter (fun k => {| aborted := true; pending := pending k |}) p
                (controllers s ++ [new]) !! length (controllers s) = Some k /\
              in_flight k = false).
    { destruct (decide (p = length (controllers s))) as [->|Hne].
      + rewrite list_lookup_alter_eq, list_lookup_middle by reflexivity.
        simpl. eauto.
      + rewrite list_lookup_alter_ne, list_lookup_middle by auto. eauto. }
    destruct Hk as (k & Hk & Hfl).
    repeat split.
    + rewrite !length_alter, length_app. simpl. lia.
    + rewrite (count_alter_up in_flight _ _ _ k Hk Hfl) by reflexivity.
      rewrite count_alter_same, count_app by reflexivity.
      unfold count. simpl. lia.
  - repeat split.
    + rewrite length_alter, length_app. simpl. lia.
    + rewrite (count_alter_up in_flight _ _ _ new) by
        (try reflexivity; apply list_lookup_middle; reflexivity).
      rewrite count_app. unfold count. simpl. lia.
Qed.

Lemma reply_of_trimmed o reply : reply_of o = inl reply -> trimmed reply.
Proof.
  destruct o as [[m|]| |r]; simpl; try discriminate.
  destruct (is_empty (trim (default [] r))) eqn:E; [discriminate|].
  intros [= <-]. apply trim_trimmed, E.
Qed.

(** What one event does to the messages and the requests: nothing; or a
    user message and a new request; or the end of a request, with an
    assistant message or with none. *)
Lemma step_ledger s e :
  let s' := step s e in
  (messages s' = messages s /\ controllers s' = controllers s /\
   thinkingAbortRef s' = thinkingAbortRef s)
  \/
  (exists m, messages s' = messages s ++ [m] /\ role m = user /\
             trimmed (content m) /\
             thinkingAbortRef s' = Some (length (controllers s)) /\
             length (controllers s') = S (length (controllers s)) /\
             count in_flight (controllers s') =
               S (count in_flight (controllers s)))
  \/
  (exists l, messages s' = messages s ++ l /\
             (l = [] \/ exists m, l = [m] /\ role m = assistant /\
                                  trimmed (content m)) /\
             thinkingAbortRef s' = thinkingAbortRef s /\
             length (controllers s') = length (controllers s) /\
             S (count in_flight (controllers s')) =
               count in_flight (controllers s)).
Proof.
  cbv zeta.
  assert (Hissue : forall t rd x,
            is_empty t = false -> trim t = t ->
            messages x = messages s -> controllers x = controllers s ->
            exists m,
              messages (commit s (callBackend t (pushMessage rd user t x))) =
                messages s ++ [m] /\ role m = user /\ trimmed (content m) /\
              thinkingAbortRef
                (commit s (callBackend t (pushMessage rd user t x))) =
                Some (length (controllers s)) /\
              length (controllers
                (commit s (callBackend t (pushMessage rd user t x)))) =
                S (length (controllers s)) /\
              count in_flight (controllers
                (commit s (callBackend t (pushMessage rd user t x)))) =
                S (count in_flight (controllers s))).
  { intros t rd x Ht Htt Hm Hc.
    destruct (callBackend_requests t (pushMessage rd user t x))
      as (G1 & _ & G3 & G4 & G5).
    simpl in G1, G3, G4, G5. rewrite Hm in G1. rewrite Hc in G3, G4, G5.
    eexists. peel. simpl. rewrite G1, G3, G4, G5.
    repeat split; try reflexivity; simpl; [|exact Htt].
    intros E. rewrite E in Ht. discriminate. }
  destruct e; simpl.
  - left. case_bool_decide; [auto|].
    destruct (started_effects_shape (set_started b s))
      as (? & ? & ? & ? & ? & ? & ->). auto.
  - left. case_bool_decide; [auto|].
    destruct (micEffect_shape (set_micEnabled b s)) as (? & ? & ? & ->).
    peel. auto.
  - left. destruct (bootTimer s); [peel|]; auto.
  - left. destruct (settleTimer s) as [p|]; [|auto].
    destruct (startListening_shape p (set_settleTimer None s))
      as (? & ? & ? & ->). peel. auto.
  - left. destruct (rearmTimers s) as [|p rest]; [auto|].
    destruct (startListening_shape p (set_rearmTimers rest s))
      as (? & ? & ? & ->). peel. auto.
  - left. destruct (permissionWaits s); auto.
  - left. destruct (permissionWaits s); [|peel]; auto.
  - left. destruct (recognitions s !! r) as [rc|]; [|auto].
    destruct (running rc); auto.
  - left. destruct (recognitions s !! r) as [rc|]; [|auto].
    destruct (_ && _); auto.
  - left. destruct (recognitions s !! r) as [rc|]; [|auto].
    destruct (_ && _); [peel|]; auto.
  - (* RecEnd *)
    destruct (recognitions s !! r) as [rc|]; [|auto].
    destruct (running rc); [|auto].
    destruct (handlers rc); [|auto].
    unfold onend. cbv zeta. cbn [lastTranscriptRef set_micActive set_recognitions].
    destruct (is_empty (trim (lastTranscriptRef s))) eqn:E.
    + left. destruct (_ && _); peel; auto.
    + right. left. apply Hissue; auto using trim_idem.
  - (* SendText *)
    destruct (is_empty (trim t)) eqn:E; [auto|].
    right. left. apply Hissue; auto using trim_idem.
  - (* FetchSettled *)
    destruct (controllers s !! c) as [k|] eqn:Hc; [|auto].
    destruct (pending k) eqn:Hk; [|auto].
    right. right.
    assert (Hdown :
      S (count in_flight
           (alter (fun x => {| aborted := aborted x; pending := None |}) c
              (controllers s))) = count in_flight (controllers s)).
    { apply (count_alter_down in_flight _ _ _ k Hc); [|reflexivity].
      unfold in_flight. rewrite Hk. reflexivity. }
    unfold callBackend_resume.
    destruct (reply_of _) as [reply|msg] eqn:Hrep.
    + match goal with |- context [speak ?t ?x] =>
        destruct (speak_shape t x) as (? & ? & ? & ? & ->) end.
      eexists. peel. simpl. rewrite length_alter.
      repeat split; try reflexivity; try exact Hdown.
      right. eexists. repeat split; try reflexivity.
      * exact (proj1 (reply_of_trimmed _ _ Hrep)).
      * exact (proj2 (reply_of_trimmed _ _ Hrep)).
    + exists []. peel. simpl. rewrite length_alter, app_nil_r. auto.
  - left. destruct (placeholderTimers s); [|peel]; auto.
  - left. destruct (utterances s); [|peel]; auto.
  - left. destruct (utterances s); [|peel]; auto.
  - left. peel. auto.
Qed.

Lemma ledger_step s e :
  (Forall (fun m => trimmed (content m)) (messages s) /\
   count is_user (messages s) = length (controllers s) /\
   (count is_assistant (messages s) + count in_flight (controllers s)
      <= length (controllers s))%nat /\
   thinkingAbortRef s =
     match length (controllers s) with O => None | S n => Some n end) ->
  let s' := step s e in
  Forall (fun m => trimmed (content m)) (messages s') /\
  count is_user (messages s') = length (controllers s') /\
  (count is_assistant (messages s') + count in_flight (controllers s')
     <= length (controllers s'))%nat /\
  thinkingAbortRef s' =
    match length (controllers s') with O => None | S n => Some n end.
Proof.
  intros (H1 & H2 & H3 & H4). cbv zeta.
  destruct (step_ledger s e)
    as [(-> & -> & ->) | [(m & -> & Hr & Ht & -> & -> & ->)
                          | (l & -> & Hl & -> & -> & Hc)]].
  - auto.
  - assert (Hu : count is_user [m] = 1%nat /\ count is_assistant [m] = 0%nat)
      by (unfold count, is_user, is_assistant; simpl; rewrite Hr; auto).
    destruct Hu as [Hu Ha]. rewrite !count_app, Hu, Ha.
    repeat split; try lia. apply Forall_app. auto.
  - destruct Hl as [-> | (m & -> & Hr & Ht)].
    + rewrite app_nil_r. repeat split; try assumption; lia.
    + assert (Hu : count is_user [m] = 0%nat /\ count is_assistant [m] = 1%nat)
        by (unfold count, is_user, is_assistant; simpl; rewrite Hr; auto).
      destruct Hu as [Hu Ha]. rewrite !count_app, Hu, Ha.
      repeat split; try assumption; try lia. apply Forall_app. auto.
Qed.

Lemma ledger_run c es :
  let s := run (mount c) es in
  Forall (fun m => trimmed (content m)) (messages s) /\
  count is_user (messages s) = length (controllers s) /\
  (count is_assistant (messages s) + count in_flight (controllers s)
     <= length (controllers s))%nat /\
  thinkingAbortRef s =
    match length (controllers s) with O => None | S n => Some n end.
Proof.
  cbv zeta.
  assert (H0 : Forall (fun m => trimmed (content m)) (messages (mount c)) /\
               count is_user (messages (mount c)) =
                 length (controllers (mount c)) /\
               (count is_assistant (messages (mount c))
                + count in_flight (controllers (mount c))
                  <= length (controllers (mount c)))%nat /\
               thinkingAbortRef (mount c) =
                 match length (controllers (mount c)) with
                 | O => None | S n => Some n end).
  { unfold mount.
    destruct (started_effects_shape (initial c))
      as (? & ? & ? & ? & ? & ? & ->).
    simpl. unfold count. simpl. auto. }
  generalize dependent (mount c). induction es as [|e es IH]; intros s Hs.
  - exact Hs.
  - apply (IH (step s e)), ledger_step, Hs.
Qed.

(** X8: every message of a session has a content that is not empty and
    has no whitespace at either end: nothing blank or untrimmed is ever
    appended. *)
Theorem messages_are_trimmed (c : Config) (es : list Event) :
  Forall (fun m => trimmed (content m)) (messages (run (mount c) es)).
Proof. apply (ledger_run c es). Qed.

(** X9: in a session there are exactly as many user messages as requests
    were issued, and the assistant messages together with the requests
    still in flight never outnumber them: a request yields at most one
    reply. *)
Theorem replies_match_requests (c : Config) (es : list Event) :
  let s := run (mount c) es in
  count is_user (messages s) = length (controllers s) /\
  (count is_assistant (messages s) + count in_flight (controllers s)
     <= count is_user (messages s))%nat.
Proof.
  cbv zeta. destruct (ledger_run c es) as (_ & H2 & H3 & _).
  split; [exact H2|]. rewrite H2. exact H3.
Qed.

(** X10: last call wins: the ref always holds the controller issued
    last, and a request that is in flight without having been cancelled
    is the one issued last. *)
Theorem newest_request_wins (c : Config) (es : list Event) :
  let s := run (mount c) es in
  thinkingAbortRef s =
    match length (controllers s) with O => None | S n => Some n end /\
  (forall i k, controllers s !! i = Some k -> live k = true ->
               S i = length (controllers s)).
Proof.
  cbv zeta. destruct (ledger_run c es) as (_ & _ & _ & H4).
  split; [exact H4|]. intros i k Hi Hk.
  assert (Hcons : consistent (run (mount c) es))
    by (apply reachable_consistent; exists c, es; reflexivity).
  pose proof (live_is_current _ Hcons i k Hi Hk) as Hr.
  rewrite H4 in Hr. destruct (length (controllers (run (mount c) es)));
    congruence.
Qed.

(** *** Stopping the capture *)

Lemma stopped_events r s e :
  stopped r s -> of_capture r e = true -> step s e = s.
Proof.
  unfold stopped. intros Hs He.
  destruct e; simpl in He; try discriminate;
    apply bool_decide_eq_true in He; subst; simpl;
    destruct (recognitions s !! r) as [rc|]; try reflexivity;
    rewrite Hs; reflexivity.
Qed.

Lemma stopped_alter r r0 s s' :
  recognitions s' = alter detach_and_abort r0 (recognitions s) ->
  stopped r s -> stopped r s'.
Proof.
  unfold stopped. intros -> Hs.
  destruct (decide (r0 = r)) as [->|Hne].
  - rewrite list_lookup_alter_eq.
    destruct (recognitions s !! r); simpl; auto.
  - rewrite list_lookup_alter_ne by assumption. exact Hs.
Qed.

Lemma stopped_same r s s' :
  recognitions s' = recognitions s -> stopped r s -> stopped r s'.
Proof. unfold stopped. intros ->. auto. Qed.

Lemma stopListeningHard_stops r s :
  recognitionRef s = Some r -> stopped r (stopListeningHard s).
Proof.
  intros Hr. unfold stopped, stopListeningHard. simpl. rewrite Hr. simpl.
  rewrite list_lookup_alter_eq.
  destruct (recognitions s !! r); simpl; auto.
Qed.

Lemma stopped_stopListeningHard r s :
  stopped r s -> stopped r (stopListeningHard s).
Proof.
  intros Hs. unfold stopListeningHard. cbv zeta.
  cbn [recognitionRef set_micActive].
  destruct (recognitionRef s) as [r0|].
  - apply (stopped_alter r r0 s); [reflexivity|exact Hs].
  - apply (stopped_same r s); [reflexivity|exact Hs].
Qed.

Lemma stopped_autoStartEffect r p s :
  stopped r s -> stopped r (autoStartEffect p s).
Proof.
  intros Hs. unfold autoStartEffect. cbv zeta.
  assert (H0 : stopped r (set_settleTimer None s))
    by (apply (stopped_same r s); [reflexivity|exact Hs]).
  repeat (destruct (negb _);
          [first [exact H0 | apply stopped_stopListeningHard, H0]|]).
  apply (stopped_same r s); [reflexivity|exact Hs].
Qed.

Lemma stopped_commit r old s : stopped r s -> stopped r (commit old s).
Proof.
  intros Hs. unfold commit. case_bool_decide; [exact Hs|].
  apply stopped_autoStartEffect, Hs.
Qed.

Lemma callBackend_stops r t s :
  recognitionRef s = Some r -> stopped r (callBackend t s).
Proof.
  intros Hr. apply (stopped_same r (stopListeningHard s)).
  - unfold callBackend, abort. simpl.
    destruct (thinkingAbortRef (stopListeningHard s)); reflexivity.
  - apply stopListeningHard_stops, Hr.
Qed.

Lemma speak_stops r t s :
  recognitionRef s = Some r -> stopped r (speak t s).
Proof.
  intros Hr. apply (stopped_same r (stopListeningHard s)).
  - unfold speak. cbv zeta. destruct (negb _); reflexivity.
  - apply stopListeningHard_stops, Hr.
Qed.

Lemma micActive_commit_off old s :
  micActive s = false -> micActive (commit old s) = false.
Proof.
  intros Hm. unfold commit. case_bool_decide; [exact Hm|].
  unfold autoStartEffect. cbv zeta.
  destruct (stopListeningHard_shape (set_settleTimer None s)) as (? & ->).
  repeat (destruct (negb _); [first [exact Hm | reflexivity]|]).
  exact Hm.
Qed.

(** X11: thinking and speaking cut the capture off.  When a text is
    submitted, or when a reply arrives for a live request, the capture
    session the ref holds is detached and aborted: the mic indicator is
    off and no later event of that session changes anything. *)
Theorem thinking_and_speaking_cut_capture (s : State) (r : nat) :
  recognitionRef s = Some r ->
  (forall t rd,
     is_empty (trim t) = false ->
     let s1 := step s (SendText t rd) in
     phase s1 = thinking /\ micActive s1 = false /\
     forall e, of_capture r e = true -> step s1 e = s1) /\
  (forall c k o rd reply,
     controllers s !! c = Some k -> live k = true ->
     reply_of o = inl reply ->
     let s1 := step s (FetchSettled c o rd) in
     phase s1 = speaking /\ micActive s1 = false /\
     forall e, of_capture r e = true -> step s1 e = s1).
Proof.
  intros Hr. split.
  - intros t rd Ht. cbv zeta. simpl. rewrite Ht.
    set (x := callBackend (trim t) (pushMessage rd user (trim t) s)).
    assert (Hx : stopped r x) by (apply callBackend_stops; exact Hr).
    assert (Hp : phase x = thinking /\ micActive x = false).
    { subst x. destruct (callBackend_shape (trim t)
                           (pushMessage rd user (trim t) s)) as (? & ? & ->).
      auto. }
    destruct Hp as [Hp Hm]. split; [|split].
    + destruct (commit_frame s x) as (-> & _). exact Hp.
    + apply micActive_commit_off, Hm.
    + intros e He. apply (stopped_events r); [|exact He].
      apply stopped_commit, Hx.
  - intros c k o rd reply Hc Hk Ho. cbv zeta. simpl. rewrite Hc.
    unfold live in Hk. apply andb_true_iff in Hk as [Hfl Hab].
    unfold in_flight in Hfl. destruct (pending k) eqn:Hpk; [|discriminate].
    apply negb_true_iff in Hab.
    unfold callBackend_resume. rewrite Hab, Ho.
    match goal with |- context [speak reply ?y] => set (x := speak reply y) end.
    assert (Hx : stopped r x) by (apply speak_stops; exact Hr).
    assert (Hp : phase x = speaking /\ micActive x = false).
    { subst x. unfold speak. cbv zeta.
      match goal with |- context [stopListeningHard ?y] =>
        destruct (stopListeningHard_shape y) as (? & ->) end.
      destruct (negb _); auto. }
    destruct Hp as [Hp Hm]. split; [|split].
    + destruct (commit_frame s x) as (-> & _). exact Hp.
    + apply micActive_commit_off, Hm.
    + intros e He. apply (stopped_events r); [|exact He].
      apply stopped_commit, Hx.
Qed.

Lemma thinking_and_speaking_cut_capture_witness :
  let s1 := step sample_heard (SendText lights_request (sample_readings 9)) in
  recognitionRef sample_heard = Some 0%nat /\
  phase s1 = thinking /\ step s1 (RecEnd 0 (sample_readings 10)) = s1.
Proof.
  cbv zeta.
  assert (Hr : recognitionRef sample_heard = Some 0%nat)
    by (vm_compute; reflexivity).
  split; [exact Hr|].
  destruct (thinking_and_speaking_cut_capture sample_heard 0 Hr) as [H _].
  destruct (H lights_request (sample_readings 9)) as (H1 & _ & H3);
    [vm_compute; reflexivity|].
  split; [exact H1|apply H3; reflexivity].
Defined.



(** *** Booting and the error phase *)

Lemma phase_facts_started_effects x :
  (phase (started_effects x) = booting ->
   bootTimer (started_effects x) = true /\ started (started_effects x) = true
   /\ error_state (started_effects x) = None) /\
  (phase (started_effects x) = error ->
   error_state (started_effects x) <> None).
Proof.
  unfold started_effects. cbv zeta.
  set (y := micEffect x).
  assert (Hboot :
    (phase (bootEffect y) = booting ->
     bootTimer (bootEffect y) = true /\ started (bootEffect y) = true
     /\ error_state (bootEffect y) = None) /\
    (phase (bootEffect y) = error -> error_state (bootEffect y) <> None)).
  { unfold bootEffect. cbv zeta. cbn [started set_bootTimer].
    destruct (started y) eqn:Hy; simpl; split; try discriminate; auto. }
  clearbody y. set (w := bootEffect y) in *. clearbody w.
  peel. case_bool_decide; peel; simpl; exact Hboot.
Qed.

Lemma phase_facts_step s e :
  ((phase s = booting ->
    bootTimer s = true /\ started s = true /\ error_state s = None) /\
   (phase s = error -> error_state s <> None)) ->
  (phase (step s e) = booting ->
   bootTimer (step s e) = true /\ started (step s e) = true
   /\ error_state (step s e) = None) /\
  (phase (step s e) = error -> error_state (step s e) <> None).
Proof.
  intros [Hb He].
  destruct e; simpl.
  - (* SetStarted *)
    case_bool_decide; [auto|]. apply phase_facts_started_effects.
  - (* SetMicEnabled *)
    case_bool_decide; [auto|]. peel. unfold micEffect. cbv zeta.
    cbn [micEnabled set_micEnabledRef set_micEnabled].
    destruct (negb b); peel; simpl.
    + destruct (phase s) eqn:Hp, (started s); simpl;
        split; try discriminate; auto.
    + destruct (phase s) eqn:Hp; simpl; split; try discriminate; auto.
  - (* BootTimeout *)
    destruct (bootTimer s) eqn:Hbt;
      [|split; [intros Hp; destruct (Hb Hp) as [Hx _]; congruence|exact He]].
    peel. unfold next_phase. simpl.
    destruct (micEnabledRef s); split; discriminate.
  - (* SettleTimeout *)
    destruct (settleTimer s) as [p|]; [|auto]. peel.
    unfold startListening. cbn [supportsSpeechRecognition set_settleTimer
                                speakingRef].
    repeat (destruct (negb _); simpl; [first [split; [discriminate|] | auto]|]);
      try (intros _; discriminate).
    destruct (speakingRef s); simpl; auto.
  - (* RearmTimeout *)
    destruct (rearmTimers s) as [|p rest]; [auto|]. peel.
    unfold startListening. cbn [supportsSpeechRecognition set_rearmTimers
                                speakingRef].
    repeat (destruct (negb _); simpl; [first [split; [discriminate|] | auto]|]);
      try (intros _; discriminate).
    destruct (speakingRef s); simpl; auto.
  - destruct (permissionWaits s); simpl; auto.
  - destruct (permissionWaits s); [auto|]. peel. simpl.
    split; [discriminate|]. intros _. discriminate.
  - destruct (recognitions s !! r) as [rc|]; [|auto].
    destruct (running rc); simpl; auto.
  - destruct (recognitions s !! r) as [rc|]; [|auto].
    destruct (_ && _); simpl; auto.
  - destruct (recognitions s !! r) as [rc|]; [|auto].
    destruct (_ && _); [|auto]. peel. simpl.
    split; [discriminate|]. intros _. discriminate.
  - (* RecEnd *)
    destruct (recognitions s !! r) as [rc|]; [|auto].
    destruct (running rc); [|auto].
    destruct (handlers rc); [|simpl; auto].
    unfold onend. cbv zeta. destruct (is_empty _).
    + destruct (_ && _); peel; simpl; auto.
    + match goal with |- context [callBackend ?t ?x] =>
        destruct (callBackend_shape t x) as (? & ? & ->) end.
      peel. simpl. split; discriminate.
  - (* SendText *)
    destruct (is_empty _); [auto|].
    match goal with |- context [callBackend ?t ?x] =>
      destruct (callBackend_shape t x) as (? & ? & ->) end.
    peel. simpl. split; discriminate.
  - (* FetchSettled *)
    destruct (controllers s !! c) as [k|]; [|auto].
    destruct (pending k); [|auto].
    unfold callBackend_resume. destruct (reply_of _).
    + match goal with |- context [speak ?t ?x] =>
        destruct (speak_shape t x) as (? & ? & ? & ? & ->) end.
      peel. simpl. split; discriminate.
    + peel. simpl. split; [discriminate|]. intros _. discriminate.
  - destruct (placeholderTimers s); [auto|]. peel. unfold speak_resume,
      next_phase. simpl. destruct (micEnabledRef s); split; discriminate.
  - destruct (utterances s); [auto|]. peel. simpl. auto.
  - destruct (utterances s); [auto|]. peel. unfold speak_resume,
      next_phase. simpl. destruct (micEnabledRef s); split; discriminate.
  - peel. unfold next_phase. simpl.
    destruct (micEnabledRef s); split; discriminate.
Qed.

Lemma phase_facts_run c es :
  let s := run (mount c) es in
  (phase s = booting ->
   bootTimer s = true /\ started s = true /\ error_state s = None) /\
  (phase s = error -> error_state s <> None).
Proof.
  cbv zeta.
  assert (H0 :
    (phase (mount c) = booting ->
     bootTimer (mount c) = true /\ started (mount c) = true
     /\ error_state (mount c) = None) /\
    (phase (mount c) = error -> error_state (mount c) <> None))
    by (unfold mount; apply phase_facts_started_effects).
  generalize dependent (mount c). induction es as [|e es IH]; intros s Hs.
  - exact Hs.
  - apply (IH (step s e)), phase_facts_step, Hs.
Qed.

(** X13: booting cannot get stuck.  Whenever a session is in the
    booting phase, the hook is started, holds no error and has its boot
    timer pending; when that timer fires the phase becomes [listening]
    with the mic enabled and [idle] without. *)
Theorem booting_always_ends (c : Config) (es : list Event) :
  let s := run (mount c) es in
  phase s = booting ->
  bootTimer s = true /\ started s = true /\ error_state s = None /\
  phase (step s BootTimeout) = (if micEnabled s then listening else idle).
Proof.
  cbv zeta. intros Hp.
  destruct (proj1 (phase_facts_run c es) Hp) as (Hb & Hs & He).
  repeat split; try assumption.
  simpl. rewrite Hb. peel. simpl. unfold next_phase. simpl.
  assert (Hcons : consistent (run (mount c) es))
    by (apply reachable_consistent; exists c, es; reflexivity).
  rewrite (ref_follows_prop _ Hcons). reflexivity.
Qed.

Lemma booting_always_ends_witness :
  phase (run (mount (sample_config true true)) []) = booting /\
  phase (step (run (mount (sample_config true true)) []) BootTimeout)
    = listening.
Proof.
  split; [reflexivity|].
  exact (proj2 (proj2 (proj2
           (booting_always_ends (sample_config true true) [] eq_refl)))).
Defined.

(** X14: the error phase always carries an error: whenever a session is
    in the error phase, the error with its title is set, so the view
    shows the Retry button. *)
Theorem error_phase_has_error (c : Config) (es : list Event) :
  let s := run (mount c) es in
  phase s = error -> exists e, error_state s = Some e.
Proof.
  cbv zeta. intros Hp.
  pose proof (proj2 (phase_facts_run c es) Hp) as He.
  destruct (error_state (run (mount c) es)) as [e|]; [eauto|congruence].
Qed.

Lemma error_phase_has_error_witness :
  let es := [BootTimeout; SettleTimeout; PermissionDenied] in
  phase (run (mount (sample_config true true)) es) = error /\
  exists e, error_state (run (mount (sample_config true true)) es) = Some e.
Proof.
  cbv zeta. split; [reflexivity|].
  exact (error_phase_has_error (sample_config true true)
           [BootTimeout; SettleTimeout; PermissionDenied] eq_refl).
Defined.

(** *** The paths of one cycle *)

(** X15: a denied microphone permission is an error and starts nothing:
    the phase becomes [error] with the title "Microphone permission
    denied", no recognition object is created, no message is appended and
    no request is issued. *)
Theorem permission_denied_is_error (s : State) (p : JarvisPhase)
    (rest : list JarvisPhase) :
  permissionWaits s = p :: rest ->
  let s' := step s PermissionDenied in
  phase s' = error /\
  error_state s' = Some permission_error /\
  title permission_error = text_of_string "Microphone permission denied" /\
  permissionWaits s' = rest /\
  length (recognitions s') = length (recognitions s) /\
  messages s' = messages s /\ controllers s' = controllers s.
Proof.
  intros Hw. cbv zeta. simpl. rewrite Hw.
  set (x := set_phase error
              (set_error_state (Some permission_error)
                 (set_permissionWaits rest s))).
  destruct (commit_frame s x)
    as (-> & -> & -> & _ & _ & -> & _ & _ & -> & _).
  repeat split; try reflexivity.
  unfold commit. case_bool_decide; [reflexivity|].
  unfold autoStartEffect, stopListeningHard. cbv zeta. simpl.
  repeat (destruct (negb _); simpl; [try reflexivity|]); try reflexivity;
    destruct (recognitionRef s); simpl; rewrite ?length_alter; reflexivity.
Qed.

Lemma permission_denied_is_error_witness :
  permissionWaits sample_waiting = [listening] /\
  phase (step sample_waiting PermissionDenied) = error.
Proof.
  split; [reflexivity|].
  exact (proj1 (permission_denied_is_error sample_waiting listening []
                  eq_refl)).
Defined.

Lemma callBackend_new_request t s :
  (forall p, thinkingAbortRef s = Some p -> (p < length (controllers s))%nat) ->
  controllers (callBackend t s) !! length (controllers s) =
    Some {| aborted := false; pending := Some t |} /\
  micActive (callBackend t s) = false.
Proof.
  intros Hlt. split.
  - unfold callBackend, abort. cbv zeta.
    destruct (stopListeningHard_shape s) as (r & ->).
    cbn [thinkingAbortRef controllers set_controllers set_phase
         set_recognitions set_micActive set_thinkingAbortRef].
    rewrite list_lookup_alter_eq.
    destruct (thinkingAbortRef s) as [p|]; simpl.
    + specialize (Hlt p eq_refl).
      rewrite list_lookup_alter_ne, list_lookup_middle by lia. reflexivity.
    + rewrite list_lookup_middle by reflexivity. reflexivity.
  - destruct (callBackend_shape t s) as (? & ? & ->). reflexivity.
Qed.

(** X16: a transcript starts a request.  In a session, when a capture
    session ends with a transcript that is not blank, one user message
    with the trimmed transcript is appended, the phase becomes
    [thinking], the mic indicator is off, and a request carrying that
    text is in flight on a fresh controller that the ref holds. *)
Theorem transcript_starts_request (s : State) (r : nat) (rc : Recognition)
    (rd : Readings) :
  reachable s ->
  recognitions s !! r = Some rc -> running rc = true -> handlers rc = true ->
  is_empty (trim (lastTranscriptRef s)) = false ->
  let t := trim (lastTranscriptRef s) in
  let s' := step s (RecEnd r rd) in
  messages s' =
    messages s ++ [ {| id := message_id rd; role := user;
                       content := t; ts := now_ts rd |} ] /\
  phase s' = thinking /\ micActive s' = false /\
  thinkingAbortRef s' = Some (length (controllers s)) /\
  controllers s' !! length (controllers s) =
    Some {| aborted := false; pending := Some t |}.
Proof.
  intros Hs Hr Hrun Hh Ht. apply reachable_consistent in Hs.
  cbv zeta. simpl. rewrite Hr, Hrun, Hh.
  unfold onend. cbv zeta.
  cbn [lastTranscriptRef set_micActive set_recognitions]. rewrite Ht.
  match goal with |- context [callBackend ?u ?y] =>
    destruct (callBackend_requests u y) as (G1 & G2 & G3 & _);
    destruct (callBackend_new_request u y) as (G4 & G5);
    [exact (current_allocated s Hs)|];
    generalize dependent (callBackend u y); intros x G1 G2 G3 G4 G5
  end.
  simpl in G1, G3, G4.
  destruct (commit_frame s x) as (-> & -> & _ & _ & _ & -> & -> & _).
  split; [exact G1|]. split; [exact G2|].
  split; [apply micActive_commit_off, G5|].
  split; [exact G3|exact G4].
Qed.

Lemma sample_heard_reachable : reachable sample_heard.
Proof. eexists _, _. reflexivity. Qed.

Lemma transcript_starts_request_witness :
  reachable sample_heard /\
  is_empty (trim (lastTranscriptRef sample_heard)) = false /\
  phase (step sample_heard (RecEnd 0 (sample_readings 8))) = thinking.
Proof.
  split; [exact sample_heard_reachable|]. split; [vm_compute; reflexivity|].
  refine (proj1 (proj2 (transcript_starts_request sample_heard 0
            {| captured := listening; handlers := true; running := true |}
            (sample_readings 8) sample_heard_reachable _ eq_refl eq_refl _)));
    vm_compute; reflexivity.
Defined.

(** X17: a typed text starts a request.  In a session, [sendText] of a
    text that is not blank appends one user message with the trimmed
    text, moves the phase to [thinking], and puts a request carrying the
    trimmed text in flight on a fresh controller that the ref holds. *)
Theorem sendText_starts_request (s : State) (t : text) (rd : Readings) :
  reachable s ->
  is_empty (trim t) = false ->
  let s' := step s (SendText t rd) in
  messages s' =
    messages s ++ [ {| id := message_id rd; role := user;
                       content := trim t; ts := now_ts rd |} ] /\
  phase s' = thinking /\ micActive s' = false /\
  thinkingAbortRef s' = Some (length (controllers s)) /\
  controllers s' !! length (controllers s) =
    Some {| aborted := false; pending := Some (trim t) |}.
Proof.
  intros Hs Ht. apply reachable_consistent in Hs.
  cbv zeta. simpl. rewrite Ht.
  match goal with |- context [callBackend ?u ?y] =>
    destruct (callBackend_requests u y) as (G1 & G2 & G3 & _);
    destruct (callBackend_new_request u y) as (G4 & G5);
    [exact (current_allocated s Hs)|];
    generalize dependent (callBackend u y); intros x G1 G2 G3 G4 G5
  end.
  simpl in G1, G3, G4.
  destruct (commit_frame s x) as (-> & -> & _ & _ & _ & -> & -> & _).
  split; [exact G1|]. split; [exact G2|].
  split; [apply micActive_commit_off, G5|].
  split; [exact G3|exact G4].
Qed.

Lemma sendText_starts_request_witness :
  let s' := step sample_thinking
              (SendText (text_of_string "  and dim them ") (sample_readings 6)) in
  reachable sample_thinking /\
  is_empty (trim (text_of_string "  and dim them ")) = false /\
  phase s' = thinking /\ thinkingAbortRef s' = Some 1%nat.
Proof.
  cbv zeta. split; [exact sample_thinking_reachable|].
  split; [vm_compute; reflexivity|].
  destruct (sendText_starts_request sample_thinking
              (text_of_string "  and dim them ") (sample_readings 6)
              sample_thinking_reachable)
    as (_ & H2 & _ & H4 & _); [vm_compute; reflexivity|].
  split; [exact H2|exact H4].
Defined.

(** X18: with speech synthesis, a reply that is not blank to a live
    request appends the assistant message, moves the phase to [speaking]
    and queues an utterance with the reply instead of the placeholder
    timer; the start of the utterance raises the speaking flag, and its
    end (or error) lowers the flag and moves the phase to [listening] if
    the mic is enabled and to [idle] otherwise. *)
Theorem reply_with_synthesis (s : State) (c : nat) (k : AbortController)
    (o : FetchOutcome) (reply : text) (rd : Readings) :
  reachable s ->
  controllers s !! c = Some k -> live k = true ->
  hasSpeechSynthesis s = true ->
  reply_of o = inl reply ->
  let s1 := step s (FetchSettled c o rd) in
  messages s1 =
    messages s ++ [ {| id := message_id rd; role := assistant;
                       content := reply; ts := now_ts rd |} ] /\
  phase s1 = speaking /\
  utterances s1 = utterances s ++ [reply] /\
  placeholderTimers s1 = placeholderTimers s /\
  speakingRef (step s1 UtteranceStart) = true /\
  speakingRef (step s1 UtteranceEnd) = false /\
  phase (step s1 UtteranceEnd) = (if micEnabled s then listening else idle).
Proof.
  intros Hs Hc Hk Hsyn Ho. apply reachable_consistent in Hs.
  pose proof (ref_follows_prop s Hs) as Hmic.
  unfold live in Hk. apply andb_true_iff in Hk as [Hfl Hab].
  unfold in_flight in Hfl. destruct (pending k) eqn:Hpk; [|discriminate].
  apply negb_true_iff in Hab.
  cbv zeta. set (s1 := step s (FetchSettled c o rd)).
  assert (H1 : messages s1 =
                 messages s ++ [ {| id := message_id rd; role := assistant;
                                    content := reply; ts := now_ts rd |} ]
               /\ phase s1 = speaking
               /\ utterances s1 = utterances s ++ [reply]
               /\ placeholderTimers s1 = placeholderTimers s
               /\ micEnabledRef s1 = micEnabledRef s).
  { subst s1. simpl. rewrite Hc, Hpk. unfold callBackend_resume.
    rewrite Hab, Ho. unfold speak. cbv zeta. peel.
    cbn [hasSpeechSynthesis set_phase set_recognitions set_micActive
         pushMessage set_messages set_controllers].
    rewrite Hsyn. simpl. auto. }
  destruct H1 as (Hm & Hp & Hu & Hpt & Hr). clearbody s1.
  split; [exact Hm|]. split; [exact Hp|]. split; [exact Hu|].
  split; [exact Hpt|].
  simpl. rewrite Hu.
  destruct (utterances s ++ [reply]) as [|u rest] eqn:E;
    [destruct (utterances s); discriminate|].
  split; [|split].
  - peel. reflexivity.
  - peel. reflexivity.
  - peel. simpl. unfold next_phase. simpl. rewrite Hr, Hmic. reflexivity.
Qed.

Lemma reply_with_synthesis_witness :
  let s1 := step sample_thinking_aloud
              (FetchSettled 0 (Json (Some lights_reply)) (sample_readings 9)) in
  hasSpeechSynthesis sample_thinking_aloud = true /\
  phase s1 = speaking /\ phase (step s1 UtteranceEnd) = idle.
Proof.
  cbv zeta. split; [reflexivity|].
  assert (Hr : reachable sample_thinking_aloud)
    by (eexists _, _; reflexivity).
  destruct (reply_with_synthesis sample_thinking_aloud 0
              {| aborted := false; pending := Some lights_request |}
              (Json (Some lights_reply)) lights_reply (sample_readings 9)
              Hr eq_refl eq_refl eq_refl eq_refl)
    as (_ & H2 & _ & _ & _ & _ & H7).
  split; [exact H2|exact H7].
Defined.

(** X19: retry recovers from the error phase.  In a started session in
    the error phase, retry clears the error, appends nothing, and moves
    the phase to [listening] with the settle timer armed, so that the
    capture starts again, if the mic is enabled, and to [idle] with no
    timer otherwise. *)
Theorem retry_recovers (s : State) :
  reachable s -> started s = true -> phase s = error ->
  let s' := step s Retry in
  error_state s' = None /\
  messages s' = messages s /\
  phase s' = (if micEnabled s then listening else idle) /\
  settleTimer s' = (if micEnabled s then Some listening else None).
Proof.
  intros Hs Hst Hp. apply reachable_consistent in Hs.
  pose proof (ref_follows_prop s Hs) as Hmic.
  cbv zeta. simpl.
  set (x := set_phase (next_phase s) (set_error_state None s)).
  destruct (commit_frame s x) as (-> & -> & -> & _).
  split; [reflexivity|]. split; [reflexivity|].
  split; [simpl; unfold next_phase; rewrite Hmic; reflexivity|].
  unfold commit. rewrite bool_decide_eq_false_2
    by (simpl; unfold next_phase; rewrite Hp;
        destruct (micEnabledRef s); discriminate).
  unfold autoStartEffect. cbv zeta.
  cbn [started set_settleTimer micEnabledRef phase x set_phase
       set_error_state].
  rewrite Hst. unfold next_phase. rewrite Hmic.
  destruct (micEnabled s); cbn [negb].
  - rewrite bool_decide_eq_true_2 by reflexivity. reflexivity.
  - match goal with |- context [stopListeningHard ?y] =>
      destruct (stopListeningHard_shape y) as (? & ->) end.
    reflexivity.
Qed.

Lemma retry_recovers_witness :
  reachable sample_denied /\ started sample_denied = true /\
  phase sample_denied = error /\
  phase (step sample_denied Retry) = listening /\
  settleTimer (step sample_denied Retry) = Some listening.
Proof.
  assert (Hr : reachable sample_denied) by (eexists _, _; reflexivity).
  split; [exact Hr|]. split; [reflexivity|]. split; [reflexivity|].
  destruct (retry_recovers sample_denied Hr eq_refl eq_refl)
    as (_ & _ & H3 & H4).
  split; [exact H3|exact H4].
Defined.



(** X21: the mic switch round trip.  In a started session that is
    listening, switching the mic off moves the phase to [idle], turns the
    mic indicator off, stops the current capture session and leaves no
    settle timer; switching it on again moves the phase back to
    [listening] and arms the settle timer. *)
Theorem mic_off_then_on (s : State) :
  reachable s -> started s = true -> phase s = listening ->
  let s1 := step s (SetMicEnabled false) in
  let s2 := step s1 (SetMicEnabled true) in
  phase s1 = idle /\ micActive s1 = false /\ settleTimer s1 = None /\
  (forall r, recognitionRef s = Some r -> stopped r s1) /\
  phase s2 = listening /\ settleTimer s2 = Some listening /\
  messages s2 = messages s.
Proof.
  intros Hs Hst Hp. apply reachable_consistent in Hs.
  pose proof (ref_follows_prop s Hs) as Hmic.
  pose proof (listening_mic_on s Hs Hp) as Hon. rewrite Hmic in Hon.
  cbv zeta.
  set (s1 := step s (SetMicEnabled false)).
  assert (H1 : phase s1 = idle /\ micActive s1 = false
               /\ settleTimer s1 = None
               /\ (forall r, recognitionRef s = Some r -> stopped r s1)
               /\ micEnabled s1 = false /\ started s1 = true
               /\ messages s1 = messages s).
  { subst s1. simpl. rewrite Hon. rewrite bool_decide_eq_false_2 by discriminate.
    unfold micEffect. cbv zeta.
    cbn [micEnabled set_micEnabledRef set_micEnabled negb].
    set (y := stopListeningHard
                (set_micEnabledRef false (set_micEnabled false s))).
    assert (Hy : phase y = listening /\ started y = true
                 /\ micActive y = false /\ micEnabledRef y = false
                 /\ micEnabled y = false /\ messages y = messages s
                 /\ recognitionRef y = recognitionRef s).
    { subst y. destruct (stopListeningHard_shape
                           (set_micEnabledRef false (set_micEnabled false s)))
        as (? & ->). simpl. repeat split; auto. }
    assert (Hys : forall r, recognitionRef s = Some r -> stopped r y).
    { intros r Hr. subst y. apply stopListeningHard_stops. exact Hr. }
    clearbody y. destruct Hy as (Y1 & Y2 & Y3 & Y4 & Y5 & Y6 & Y7).
    rewrite Y1, Y2.
    unfold commit. rewrite bool_decide_eq_false_2 by (simpl; congruence).
    unfold autoStartEffect. cbv zeta.
    cbn [started set_settleTimer set_phase micEnabledRef phase].
    rewrite Y2, Y4. cbn [negb].
    set (z := set_settleTimer None (set_phase idle y)).
    assert (Hzs : forall r, recognitionRef s = Some r -> stopped r z).
    { intros r Hr. apply (stopped_same r y); [reflexivity|auto]. }
    destruct (stopListeningHard_shape z) as (rr & E).
    split; [rewrite E; reflexivity|].
    split; [rewrite E; reflexivity|].
    split; [rewrite E; reflexivity|].
    split; [intros r Hr; apply stopped_stopListeningHard, Hzs, Hr|].
    rewrite E. simpl. auto. }
  destruct H1 as (A1 & A2 & A3 & A4 & A5 & A6 & A7). clearbody s1.
  split; [exact A1|]. split; [exact A2|]. split; [exact A3|].
  split; [exact A4|].
  simpl. rewrite A5. rewrite bool_decide_eq_false_2 by discriminate.
  unfold micEffect. cbv zeta.
  cbn [micEnabled set_micEnabledRef set_micEnabled negb phase].
  rewrite A1.
  set (y := set_phase listening
              (set_micEnabledRef true (set_micEnabled true s1))).
  destruct (commit_frame s1 y) as (-> & -> & _).
  split; [reflexivity|]. split; [|exact A7].
  unfold commit. rewrite bool_decide_eq_false_2 by (simpl; congruence).
  unfold autoStartEffect. cbv zeta.
  cbn [started set_settleTimer set_phase micEnabledRef phase y
       set_micEnabledRef set_micEnabled].
  rewrite A6. cbn [negb].
  rewrite bool_decide_eq_true_2 by reflexivity. reflexivity.
Qed.

Lemma mic_off_then_on_witness :
  started sample_listening = true /\ phase sample_listening = listening /\
  phase (step sample_listening (SetMicEnabled false)) = idle /\
  phase (step (step sample_listening (SetMicEnabled false))
           (SetMicEnabled true)) = listening.
Proof.
  split; [reflexivity|]. split; [reflexivity|].
  destruct (mic_off_then_on sample_listening sample_listening_reachable
              eq_refl eq_refl) as (H1 & _ & _ & _ & H5 & _).
  split; [exact H1|exact H5].
Defined.

(** X22: unmounting the hook cancels what is pending: in a session, after
    the cleanups no request is in flight without having been aborted, the
    capture session the ref holds is detached and aborted, and the boot
    and settle timers are cleared; the messages are untouched. *)
Theorem unmount_cancels (s : State) :
  reachable s ->
  let s' := unmount s in
  (forall i k, controllers s' !! i = Some k -> live k = false) /\
  (forall r, recognitionRef s = Some r -> stopped r s') /\
  bootTimer s' = false /\ settleTimer s' = None /\
  messages s' = messages s.
Proof.
  intros Hs. apply reachable_consistent in Hs. cbv zeta.
  unfold unmount, abort. cbv zeta.
  cbn [thinkingAbortRef set_settleTimer set_bootTimer controllers].
  split; [|split].
  - intros i k Hi.
    match type of Hi with controllers (stopListeningHard ?y) !! _ = _ =>
      destruct (stopListeningHard_frame y)
        as (_ & _ & _ & _ & _ & Hc & _); cbv zeta in Hc; rewrite Hc in Hi
    end.
    destruct (live k) eqn:Hk; [|reflexivity]. exfalso.
    destruct (thinkingAbortRef s) as [p|] eqn:Hp; simpl in Hi.
    + destruct (live_alter_abort _ _ _ _ Hi Hk) as [Hne Hi'].
      pose proof (live_is_current s Hs i k Hi' Hk). congruence.
    + pose proof (live_is_current s Hs i k Hi Hk). congruence.
  - intros r Hr. apply stopListeningHard_stops.
    destruct (thinkingAbortRef s); exact Hr.
  - match goal with |- context [stopListeningHard ?y] =>
      destruct (stopListeningHard_shape y) as (? & ->) end.
    destruct (thinkingAbortRef s); simpl; auto.
Qed.

Lemma unmount_cancels_witness :
  reachable sample_superseded /\
  count live (controllers sample_superseded) = 1%nat /\
  count live (controllers (unmount sample_superseded)) = 0%nat.
Proof.
  split; [exact sample_superseded_reachable|].
  split; [vm_compute; reflexivity|].
  pose proof (proj1 (unmount_cancels sample_superseded
                       sample_superseded_reachable)) as H.
  cbv zeta in H. unfold count.
  rewrite (VoiceFacts.filter_none live); [reflexivity|].
  intros k Hk. apply list_elem_of_In, list_elem_of_lookup in Hk as [i Hi].
  exact (H i k Hi).
Defined.

End VoiceExtras.

(* ===================================================================== *)
(** ** The capture against the other activities *)
(* ===================================================================== *)

Module SessionFacts.
Import VoiceLoop VoiceFacts VoiceExtras.



(** C1 fails on the code: the phase cell holds one value, but it does
    not keep the three activities apart.  After [retry_while_speaking]
    the controller is in [listening] while the reply is being spoken, and
    when the utterance has ended it is still in [listening] with no
    capture session, no timer and no permission request left to start
    one.  After [permission_while_speaking] the controller is in
    [speaking], the mic switched off, with a capture session running and
    the mic indicator on. *)
Theorem listening_while_speaking :
  let s := sample_retry_while_speaking in
  let s' := run s [SettleTimeout; UtteranceEnd] in
  let p := sample_permission_while_speaking in
  (phase s = listening /\ speakingRef s = true /\
   utterances s = [lights_reply]) /\
  (phase s' = listening /\ utterances s' = [] /\ recognitions s' = [] /\
   settleTimer s' = None /\ rearmTimers s' = [] /\
   permissionWaits s' = []) /\
  (phase p = speaking /\ speakingRef p = true /\
   utterances p = [lights_reply] /\
   micEnabled p = false /\ micActive p = true /\
   recognitionRef p = Some 0%nat /\
   recognitions p =
     [ {| captured := listening; handlers := true; running := true |} ]).
Proof. vm_compute. repeat split; reflexivity. Qed.




End SessionFacts.

(* ===================================================================== *)
(** ** Properties of the view and of the application *)
(* ===================================================================== *)

Module AppFacts.
Import VoiceLoop VoiceFacts VoiceExtras View App.

(** X23: what the visualizer animates.  The listening ring pulses
    exactly when the mic is enabled and the phase is [listening], the
    thinking and speaking animations follow their phases whatever the mic
    switch says, never two of the three at once; the bars move exactly
    when one of them is on, and the caption reads LISTENING in every phase
    other than thinking and speaking. *)
Theorem visualizer_follows_phase (mic : bool) (p : JarvisPhase) :
  let active := visualizer_active mic p in
  let mode := visualizer_mode p in
  isListening active mode = mic && bool_decide (p = listening) /\
  isThinking mode = bool_decide (p = thinking) /\
  isSpeaking mode = bool_decide (p = speaking) /\
  (length (List.filter (fun b : bool => b) [isListening active mode; isThinking mode;
                           isSpeaking mode]) <= 1)%nat /\
  bars_on active mode =
    (mic && bool_decide (p = listening)) || bool_decide (p = thinking)
    || bool_decide (p = speaking) /\
  (caption mode = "LISTENING" <->
   p <> thinking /\ p <> speaking).
Proof.
  cbv zeta. destruct mic, p; vm_compute;
    repeat split; try reflexivity; try lia; try discriminate;
    try (intros [? ?]; congruence); try (intros ?; discriminate).
Qed.

(** *** The wiring of the page *)

Lemma step_props s e :
  started (VoiceLoop.step s e) =
    match e with SetStarted b => b | _ => started s end /\
  micEnabled (VoiceLoop.step s e) =
    match e with SetMicEnabled b => b | _ => micEnabled s end.
Proof.
  destruct e; simpl.
  - case_bool_decide; [subst; auto|].
    destruct (started_effects_shape (set_started b s))
      as (? & ? & ? & ? & ? & ? & ->). auto.
  - case_bool_decide; [subst; auto|].
    destruct (micEffect_shape (set_micEnabled b s)) as (? & ? & ? & ->).
    peel. auto.
  - destruct (bootTimer s); [peel|]; auto.
  - destruct (settleTimer s) as [p|]; [|auto].
    destruct (startListening_shape p (set_settleTimer None s))
      as (? & ? & ? & ->). peel. auto.
  - destruct (rearmTimers s) as [|p rest]; [auto|].
    destruct (startListening_shape p (set_rearmTimers rest s))
      as (? & ? & ? & ->). peel. auto.
  - destruct (permissionWaits s); auto.
  - destruct (permissionWaits s); [|peel]; auto.
  - destruct (recognitions s !! r) as [rc|]; [|auto].
    destruct (running rc); auto.
  - destruct (recognitions s !! r) as [rc|]; [|auto].
    destruct (_ && _); auto.
  - destruct (recognitions s !! r) as [rc|]; [|auto].
    destruct (_ && _); [peel|]; auto.
  - destruct (recognitions s !! r) as [rc|]; [|auto].
    destruct (running rc); [|auto].
    destruct (handlers rc); [|auto].
    unfold onend. cbv zeta. destruct (is_empty _).
    + destruct (_ && _); peel; auto.
    + match goal with |- context [callBackend ?t ?x] =>
        destruct (callBackend_shape t x) as (? & ? & ->) end.
      peel. auto.
  - destruct (is_empty _); [auto|].
    match goal with |- context [callBackend ?t ?x] =>
      destruct (callBackend_shape t x) as (? & ? & ->) end.
    peel. auto.
  - destruct (controllers s !! c) as [k|]; [|auto].
    destruct (pending k); [|auto].
    unfold callBackend_resume. destruct (reply_of _).
    + match goal with |- context [speak ?t ?x] =>
        destruct (speak_shape t x) as (? & ? & ? & ? & ->) end.
      peel. auto.
    + peel. auto.
  - destruct (placeholderTimers s); [|peel]; auto.
  - destruct (utterances s); [|peel]; auto.
  - destruct (utterances s); [|peel]; auto.
  - peel. auto.
Qed.

Lemma reachable_step s e : reachable s -> reachable (VoiceLoop.step s e).
Proof.
  intros (c & es & ->). exists c, (es ++ [e]).
  unfold VoiceLoop.run. rewrite fold_left_app. reflexivity.
Qed.

(** Before the start no platform event finds anything to resume. *)
Lemma pristine_platform sr tts e :
  is_platform e = true ->
  VoiceLoop.step (mount (page_config sr tts)) e = mount (page_config sr tts).
Proof.
  intros He.
  assert (bootTimer (mount (page_config sr tts)) = false
          /\ settleTimer (mount (page_config sr tts)) = None
          /\ rearmTimers (mount (page_config sr tts)) = []
          /\ permissionWaits (mount (page_config sr tts)) = []
          /\ recognitions (mount (page_config sr tts)) = []
          /\ controllers (mount (page_config sr tts)) = []
          /\ placeholderTimers (mount (page_config sr tts)) = O
          /\ utterances (mount (page_config sr tts)) = [])
    as (H1 & H2 & H3 & H4 & H5 & H6 & H7 & H8)
    by (destruct sr, tts; vm_compute; repeat split; reflexivity).
  generalize dependent (mount (page_config sr tts)). intros m.
  intros H1 H2 H3 H4 H5 H6 H7 H8.
  destruct e; try discriminate He; unfold VoiceLoop.step;
    rewrite ?H1, ?H2, ?H3, ?H4, ?H5, ?H6, ?H7, ?H8, ?lookup_nil;
    reflexivity.
Qed.

Lemma run_nil (s : State) : VoiceLoop.run s [] = s.
Proof. reflexivity. Qed.

Lemma reachable_mount c : reachable (mount c).
Proof. exists c, []. symmetry. apply run_nil. Qed.

Lemma wired_init sr tts : wired sr tts (init sr tts).
Proof.
  constructor.
  - reflexivity.
  - destruct sr, tts; reflexivity.
  - destruct sr, tts; reflexivity.
  - apply (reachable_mount (page_config sr tts)).
  - intros _. repeat split; reflexivity.
Qed.

Ltac page := cbn [gate app_started app_micEnabled loop value start].

Lemma wired_start sr tts a :
  PinGate.pinAuthorized (gate a) = true ->
  started (loop a) = app_started a ->
  micEnabled (loop a) = app_micEnabled a ->
  reachable (loop a) ->
  wired sr tts (start a).
Proof.
  intros Hp Hs Hm Hr. constructor; page.
  - auto.
  - apply (step_props (loop a) (SetStarted true)).
  - rewrite (proj2 (step_props (loop a) (SetStarted true))). exact Hm.
  - apply reachable_step, Hr.
  - rewrite Hp. discriminate.
Qed.

(** The gate authorizes only through the end of its animation. *)
Lemma gate_step_authorized g e :
  authorizes g e = false ->
  PinGate.pinAuthorized (PinGate.step g e) = PinGate.pinAuthorized g.
Proof.
  destruct e; unfold authorizes; intros Ha;
    unfold PinGate.step, PinGate.addDigit, PinGate.tryValidateIfComplete,
      PinGate.backspace, PinGate.clearAll;
    rewrite ?Ha;
    repeat (match goal with |- context [if ?b then _ else _] =>
              destruct b end);
    try reflexivity.
  destruct (PinGate.denyTimers g); reflexivity.
Qed.

Lemma gate_step_authorizes g e :
  authorizes g e = true ->
  PinGate.pinAuthorized (PinGate.step g e) = true.
Proof.
  destruct e; unfold authorizes; try discriminate.
  intros Ha. unfold PinGate.step. rewrite Ha. reflexivity.
Qed.

Lemma wired_step sr tts a e : wired sr tts a -> wired sr tts (step a e).
Proof.
  intros W. destruct (W) as [H1 H2 H3 H4 H5].
  destruct e; unfold step; cbv zeta.
  - (* GateEvent *)
    destruct (authorizes (gate a) e) eqn:Ha.
    + apply wired_start; page; auto using gate_step_authorizes.
    + constructor; page; auto.
      * rewrite gate_step_authorized by exact Ha. exact H1.
      * rewrite gate_step_authorized by exact Ha. exact H5.
  - (* StartMachine *)
    assert (modal_open a = false) as ->
      by (unfold modal_open; rewrite H1;
          destruct (PinGate.pinAuthorized (gate a)); reflexivity).
    exact W.
  - (* ToggleMic *)
    unfold controls_disabled.
    destruct (app_started a) eqn:Hst; cbn [negb orb]; [|exact W].
    case_bool_decide; [exact W|].
    constructor; page; auto.
    + rewrite (proj1 (step_props (loop a) (SetMicEnabled _))). exact H2.
    + apply (step_props (loop a) (SetMicEnabled _)).
    + apply reachable_step, H4.
    + rewrite <- H1. discriminate.
  - (* TypeText *)
    unfold controls_disabled.
    destruct (panel_shown a && _) eqn:Hc; [|exact W].
    constructor; page; auto.
    intros Hp. rewrite <- H1 in Hp. rewrite Hp in Hc. simpl in Hc.
    rewrite andb_false_r in Hc. discriminate.
  - (* Submit *)
    unfold controls_disabled.
    destruct (panel_shown a && _) eqn:Hc; [|exact W].
    destruct (is_empty _); [exact W|].
    constructor; page; auto.
    + rewrite (proj1 (step_props (loop a) (SendText _ _))). exact H2.
    + rewrite (proj2 (step_props (loop a) (SendText _ _))). exact H3.
    + apply reachable_step, H4.
    + intros Hp. rewrite <- H1 in Hp. rewrite Hp in Hc. simpl in Hc.
      rewrite andb_false_r in Hc. discriminate.
  - (* ClickRetry *)
    destruct (app_started a) eqn:Hst; cbn [andb]; [|exact W].
    destruct (retry_shown a); [|exact W].
    constructor; page; auto.
    + rewrite (proj1 (step_props (loop a) Retry)). exact H2.
    + rewrite (proj2 (step_props (loop a) Retry)). exact H3.
    + apply reachable_step, H4.
    + rewrite <- H1. discriminate.
  - (* Platform *)
    destruct (is_platform e) eqn:He; [|exact W].
    constructor; page; auto.
    + rewrite (proj1 (step_props (loop a) e)).
      destruct e; try discriminate He; exact H2.
    + rewrite (proj2 (step_props (loop a) e)).
      destruct e; try discriminate He; exact H3.
    + apply reachable_step, H4.
    + intros Hp. destruct (H5 Hp) as (E & Hv & Hm).
      rewrite E, pristine_platform by exact He. auto.
Qed.

Lemma wired_run sr tts es : wired sr tts (run (init sr tts) es).
Proof.
  assert (H := wired_init sr tts).
  generalize dependent (init sr tts).
  induction es as [|e es IH]; intros a Ha; [exact Ha|].
  apply (IH (step a e)), wired_step, Ha.
Qed.

(** X24: the page keeps the controller behind the gate.  In every
    state of the page the hook's [started] prop equals the gate's
    [pinAuthorized], because [onAuthorized] sets both together; so the
    Start Machine modal, open when [!started && pinAuthorized], never
    opens, and the hook's mic prop is the switch of [JarvisCore]. *)
Theorem start_modal_never_opens (sr tts : bool) (es : list Event) :
  let a := run (init sr tts) es in
  modal_open a = false /\
  app_started a = PinGate.pinAuthorized (gate a) /\
  started (loop a) = PinGate.pinAuthorized (gate a) /\
  micEnabled (loop a) = app_micEnabled a.
Proof.
  cbv zeta. destruct (wired_run sr tts es) as [H1 H2 H3 _ _].
  split; [|split; [exact H1|split; [congruence|exact H3]]].
  unfold modal_open. rewrite H1.
  destruct (PinGate.pinAuthorized _); reflexivity.
Qed.

(** X25: nothing happens behind the gate.  While the gate has not
    authorized, whatever was clicked, typed or delivered by the platform,
    the controller is still locked and has no message, no request, no
    capture session, no utterance and no timer, and the text input is
    empty. *)
Theorem locked_behind_the_gate (sr tts : bool) (es : list Event) :
  let a := run (init sr tts) es in
  PinGate.pinAuthorized (gate a) = false ->
  phase (loop a) = locked /\ messages (loop a) = [] /\
  controllers (loop a) = [] /\ recognitions (loop a) = [] /\
  utterances (loop a) = [] /\ bootTimer (loop a) = false /\
  settleTimer (loop a) = None /\ error_state (loop a) = None /\
  value a = [].
Proof.
  cbv zeta. intros Hp.
  destruct (behind_the_gate _ _ _ (wired_run sr tts es) Hp) as (-> & -> & _).
  destruct sr, tts; vm_compute; repeat split; reflexivity.
Qed.

Lemma locked_behind_the_gate_witness :
  let a := run (init true true)
             [GateEvent (PinGate.AddDigit "2"); ToggleMic;
              TypeText lights_request; Submit (sample_readings 5);
              ClickRetry; StartMachine; Platform BootTimeout] in
  PinGate.pinAuthorized (gate a) = false /\
  phase (loop a) = locked /\ messages (loop a) = [].
Proof.
  cbv zeta. split; [vm_compute; reflexivity|].
  destruct (locked_behind_the_gate true true
              [GateEvent (PinGate.AddDigit "2"); ToggleMic;
               TypeText lights_request; Submit (sample_readings 5);
               ClickRetry; StartMachine; Platform BootTimeout])
    as (H1 & H2 & _); [vm_compute; reflexivity|].
  split; [exact H1|exact H2].
Defined.

(** X26: the authorization starts the boot.  The gate event that calls
    [onAuthorized] sets [pinAuthorized] and [started], moves the
    controller from [locked] to [booting] with the boot timer pending and
    no error; when that timer fires the phase is [listening], the page
    starting with the mic switched on. *)
Theorem authorization_starts_boot (sr tts : bool) (es : list Event)
    (e : PinGate.Event) :
  let a := run (init sr tts) es in
  authorizes (gate a) e = true ->
  let a' := step a (GateEvent e) in
  phase (loop a) = locked /\
  PinGate.pinAuthorized (gate a') = true /\ app_started a' = true /\
  phase (loop a') = booting /\ bootTimer (loop a') = true /\
  error_state (loop a') = None /\
  phase (loop (step a' (Platform BootTimeout))) = listening.
Proof.
  cbv zeta. intros Ha.
  assert (Hp : PinGate.pinAuthorized (gate (run (init sr tts) es)) = false).
  { destruct e; try discriminate Ha. unfold authorizes in Ha.
    apply andb_true_iff in Ha as [Ho _]. unfold PinGate.gate_open in Ho.
    destruct (PinGate.pinAuthorized _); [discriminate Ho|reflexivity]. }
  destruct (behind_the_gate _ _ _ (wired_run sr tts es) Hp) as (E & _ & _).
  generalize dependent (run (init sr tts) es). intros a Ha Hp E.
  unfold step. rewrite Ha. unfold start. page.
  rewrite (gate_step_authorizes _ _ Ha). rewrite E.
  destruct sr, tts; vm_compute; repeat split; reflexivity.
Qed.

Lemma authorization_starts_boot_witness :
  let a := run (init true true)
             (map (fun d => GateEvent (PinGate.AddDigit d))
                PinGate.pin_digits) in
  let a' := step a (GateEvent PinGate.AnimationComplete) in
  authorizes (gate a) PinGate.AnimationComplete = true /\
  phase (loop a') = booting /\
  phase (loop (step a' (Platform BootTimeout))) = listening.
Proof.
  cbv zeta. split; [vm_compute; reflexivity|].
  destruct (authorization_starts_boot true true
              (map (fun d => GateEvent (PinGate.AddDigit d))
                 PinGate.pin_digits) PinGate.AnimationComplete)
    as (_ & _ & _ & H4 & _ & _ & H7); [vm_compute; reflexivity|].
  split; [exact H4|exact H7].
Defined.

(** X27: the boot blocks the controls.  While the controller is
    booting, the mic toggle, the text input, SEND, Retry and Start
    Machine change nothing: the first three are disabled, no error card
    is shown and the modal is closed. *)
Theorem boot_blocks_interaction (sr tts : bool) (es : list Event)
    (e : Event) :
  let a := run (init sr tts) es in
  phase (loop a) = booting -> is_interaction e = true -> step a e = a.
Proof.
  cbv zeta. intros Hp He.
  destruct (wired_run sr tts es) as [H1 H2 H3 (c & es' & E) _].
  assert (Hm : modal_open (run (init sr tts) es) = false).
  { unfold modal_open. rewrite H1.
    destruct (PinGate.pinAuthorized _); reflexivity. }
  assert (Herr : error_state (loop (run (init sr tts) es)) = None).
  { rewrite E. rewrite E in Hp.
    exact (proj2 (proj2 (proj1 (phase_facts_run c es') Hp))). }
  generalize dependent (run (init sr tts) es). intros a Hp H1 H2 H3 E Hm Herr.
  assert (Hd : controls_disabled a = true).
  { unfold controls_disabled. rewrite bool_decide_eq_true_2 by exact Hp.
    apply orb_true_r. }
  destruct e; try discriminate He; unfold step; cbv zeta.
  - rewrite Hm. reflexivity.
  - rewrite Hd. reflexivity.
  - rewrite Hd, andb_false_r. reflexivity.
  - rewrite Hd, andb_false_r. reflexivity.
  - unfold retry_shown. rewrite Herr, andb_false_r. reflexivity.
Qed.

Lemma boot_blocks_interaction_witness :
  let a := run (init true true)
             (map (fun d => GateEvent (PinGate.AddDigit d))
                PinGate.pin_digits
              ++ [GateEvent PinGate.AnimationComplete]) in
  phase (loop a) = booting /\ step a ToggleMic = a.
Proof.
  cbv zeta. split; [vm_compute; reflexivity|].
  apply (boot_blocks_interaction true true
           (map (fun d => GateEvent (PinGate.AddDigit d)) PinGate.pin_digits
            ++ [GateEvent PinGate.AnimationComplete]) ToggleMic);
    vm_compute; reflexivity.
Defined.

(** X28: SEND sends the trimmed text once.  With the text panel shown,
    a submit does nothing when [canSend] is false; when it is true the
    input is cleared, one user message with the trimmed value is
    appended (the hook trims again, which changes nothing), the phase
    becomes [thinking] and a request with that text is in flight. *)
Theorem submit_sends_trimmed (sr tts : bool) (es : list Event)
    (rd : Readings) :
  let a := run (init sr tts) es in
  let a' := step a (Submit rd) in
  panel_shown a = true ->
  (canSend a = false -> a' = a) /\
  (canSend a = true ->
   value a' = [] /\
   messages (loop a') =
     messages (loop a) ++ [ {| id := message_id rd; role := user;
                               content := trim (value a);
                               ts := now_ts rd |} ] /\
   phase (loop a') = thinking /\
   thinkingAbortRef (loop a') = Some (length (controllers (loop a))) /\
   controllers (loop a') !! length (controllers (loop a)) =
     Some {| aborted := false; pending := Some (trim (value a)) |}).
Proof.
  cbv zeta. intros Hs.
  destruct (wired_run sr tts es) as [_ _ _ Hr _].
  generalize dependent (run (init sr tts) es). intros a Hs Hr.
  apply reachable_consistent in Hr.
  unfold canSend, step. cbv zeta. rewrite Hs. cbn [andb].
  destruct (controls_disabled a); cbn [negb andb].
  { split; [reflexivity|discriminate]. }
  destruct (is_empty (trim (value a))) eqn:Ht; cbn [negb].
  { split; [reflexivity|discriminate]. }
  split; [discriminate|]. intros _. page.
  split; [reflexivity|].
  unfold VoiceLoop.step. cbv zeta. rewrite trim_idem, Ht.
  match goal with |- context [callBackend ?u ?y] =>
    destruct (callBackend_requests u y) as (G1 & G2 & G3 & _);
    destruct (callBackend_new_request u y) as (G4 & G5);
    [exact (current_allocated (loop a) Hr)|];
    generalize dependent (callBackend u y); intros x G1 G2 G3 G4 G5
  end.
  simpl in G1, G3, G4.
  destruct (commit_frame (loop a) x) as (-> & -> & _ & _ & _ & -> & -> & _).
  split; [exact G1|]. split; [exact G2|]. split; [exact G3|exact G4].
Qed.

Lemma submit_sends_trimmed_witness :
  let a := run (init true true)
             (map (fun d => GateEvent (PinGate.AddDigit d))
                PinGate.pin_digits
              ++ [GateEvent PinGate.AnimationComplete;
                  Platform BootTimeout; ToggleMic;
                  TypeText (text_of_string "  and dim them ")]) in
  panel_shown a = true /\ canSend a = true /\
  phase (loop (step a (Submit (sample_readings 6)))) = thinking.
Proof.
  cbv zeta. split; [vm_compute; reflexivity|].
  split; [vm_compute; reflexivity|].
  destruct (submit_sends_trimmed true true
              (map (fun d => GateEvent (PinGate.AddDigit d))
                 PinGate.pin_digits
               ++ [GateEvent PinGate.AnimationComplete;
                   Platform BootTimeout; ToggleMic;
                   TypeText (text_of_string "  and dim them ")])
              (sample_readings 6))
    as (_ & H2); [vm_compute; reflexivity|].
  destruct H2 as (_ & _ & H & _); [vm_compute; reflexivity|].
  exact H.
Defined.

End AppFacts.
